(** * The posts API route (src/app/api/posts/route.tsx)

    A shallow embedding of the four handlers of the route, [GET], [POST],
    [PUT] and [DELETE], and the properties of the listing and of the
    create / update / delete paths.

    Conventions of the embedding.
    - A JavaScript string is the list of its UTF-16 code units ([jsstring]).
    - A JavaScript number is a [double]: an integer that a double holds
      exactly, an infinity or [NaN]; what [parseInt], [-] and [*] give is
      rounded to 53 significant bits as the doubles round it.
    - The handlers run against a [World]: the five collections of the
      database and what the database makes of stage arguments that are not
      proper counts, the objects of the storage bucket and the trace of the
      writes done so far.  What a request cannot decide by itself (the
      session, [Math.random], the outcome of an upload and of a save) is
      read from an [Env].
    - [await]ed calls that can reject are computations in a small state and
      exception monad, and the [try]/[catch] of a handler is [try_catch].
    - The database is assumed reachable: [conn()] and the queries return. *)

From Stdlib Require Import Ascii String.
From Stdlib Require Import List ZArith Lia Bool Permutation Sorted.
Import ListNotations.
Local Open Scope Z_scope.

(* ================================================================== *)
(** ** JavaScript strings *)

Module JS.

(** One UTF-16 code unit. *)
Definition cu := N.
Definition jsstring := list cu.

(** A string literal of the source (ASCII only). *)
Definition lit (s : string) : jsstring :=
  map N_of_ascii (list_ascii_of_string s).

Definition cu_eqb (a b : cu) : bool := N.eqb a b.

Fixpoint str_eqb (a b : jsstring) : bool :=
  match a, b with
  | [], [] => true
  | x :: a', y :: b' => cu_eqb x y && str_eqb a' b'
  | _, _ => false
  end.

Definition COMMA : cu := 44%N.
Definition SLASH : cu := 47%N.

(** WhiteSpace and LineTerminator code points of ECMAScript: what
    [String.prototype.trim] strips and [parseInt] skips. *)
Definition is_space (c : cu) : bool :=
  existsb (N.eqb c)
    [9; 10; 11; 12; 13; 32; 160; 5760; 8232; 8233; 8239; 8287; 12288; 65279]%N
  || ((8192 <=? c)%N && (c <=? 8202)%N).

Fixpoint trimStart (s : jsstring) : jsstring :=
  match s with
  | c :: r => if is_space c then trimStart r else s
  | [] => []
  end.

Definition trimEnd (s : jsstring) : jsstring := rev (trimStart (rev s)).

(** [s.trim()] *)
Definition trim (s : jsstring) : jsstring := trimEnd (trimStart s).

(** [arr.join(sep)] on an array of strings, for a one-unit separator. *)
Fixpoint join (sep : cu) (l : list jsstring) : jsstring :=
  match l with
  | [] => []
  | [s] => s
  | s :: r => s ++ sep :: join sep r
  end.

(** [s.split(sep)] for a one-unit separator: the segments between the
    occurrences of [sep]; the empty string has one segment, itself. *)
Fixpoint split (sep : cu) (s : jsstring) : list jsstring :=
  match s with
  | [] => [[]]
  | c :: r =>
      if cu_eqb c sep then [] :: split sep r
      else match split sep r with
           | seg :: segs => (c :: seg) :: segs
           | [] => [[c]]
           end
  end.

(** [s.includes(sep)] *)
Definition contains (sep : cu) (s : jsstring) : bool := existsb (cu_eqb sep) s.

(** [arr.pop()] of a non-empty array, as a value: its last element. *)
Definition pop (l : list jsstring) : jsstring := last l [].

(** *** Decimal numerals *)

Definition digit (d : Z) : cu := (48 + Z.to_N d)%N.

Fixpoint digits_from (fuel : nat) (n : Z) (acc : jsstring) : jsstring :=
  match fuel with
  | O => digit (n mod 10) :: acc
  | S fuel' =>
      if n <? 10 then digit n :: acc
      else digits_from fuel' (n / 10) (digit (n mod 10) :: acc)
  end.

(** The decimal numeral of a non-negative integer, without padding. *)
Definition decimal (n : Z) : jsstring :=
  digits_from (Z.to_nat (Z.log2 n)) n [].

(** *** parseInt(s, 10) *)

Definition is_digit (c : cu) : bool := ((48 <=? c)%N && (c <=? 57)%N).

Fixpoint read_digits (s : jsstring) (acc : option Z) : option Z :=
  match s with
  | c :: r =>
      if is_digit c
      then read_digits r
             (Some (10 * match acc with Some a => a | None => 0 end
                    + (Z.of_N c - 48)))
      else acc
  | [] => acc
  end.

(** The integer that [parseInt(s, 10)] reads, before it is made a Number:
    leading white space is skipped, one sign is read, then the longest run
    of decimal digits; there is none ([None]) when no digit follows. *)
Definition parse_integer (s : jsstring) : option Z :=
  match trimStart s with
  | c :: r =>
      if cu_eqb c 45%N then option_map Z.opp (read_digits r None)
      else if cu_eqb c 43%N then read_digits r None
      else read_digits (c :: r) None
  | [] => None
  end.

End JS.
Import JS.

(* ================================================================== *)
(** ** JavaScript numbers *)

(** The Numbers the route computes with: the integers a double holds
    exactly, the two infinities and [NaN].  (The sign of a zero is not
    kept: no answer of the route shows it.) *)
Inductive double :=
| Fin (z : Z)
| Inf (negative : bool)
| NaN.

(** [n] rounded to the nearest multiple of 2^s, ties to the even one. *)
Definition round_half_even (n s : Z) : Z :=
  let q := Z.shiftr n s in
  let r := n - Z.shiftl q s in
  let half := Z.shiftl 1 (s - 1) in
  if (half <? r) || ((r =? half) && Z.odd q)
  then Z.shiftl (q + 1) s
  else Z.shiftl q s.

(** The double nearest to the integer [z]: [z] itself when it has at most
    53 significant bits, else [z] rounded to 53 bits, ties to even; an
    infinity when that is 2^1024 or more. *)
Definition to_double (z : Z) : double :=
  let a := Z.abs z in
  let s := Z.log2 a - 52 in
  let r := if s <=? 0 then a else round_half_even a s in
  if 2 ^ 1024 <=? r then Inf (z <? 0) else Fin (Z.sgn z * r).

(** [parseInt(s, 10)] *)
Definition parseInt (s : jsstring) : double :=
  match parse_integer s with
  | Some z => to_double z
  | None => NaN
  end.

(** [a - b] *)
Definition num_sub (a b : double) : double :=
  match a, b with
  | Fin x, Fin y => to_double (x - y)
  | Inf s, Fin _ => Inf s
  | Fin _, Inf s => Inf (negb s)
  | Inf s, Inf t => if Bool.eqb s t then NaN else Inf s
  | _, _ => NaN
  end.

(** [a * b] *)
Definition num_mul (a b : double) : double :=
  match a, b with
  | Fin x, Fin y => to_double (x * y)
  | Inf s, Fin y | Fin y, Inf s =>
      if y =? 0 then NaN else Inf (xorb s (y <? 0))
  | Inf s, Inf t => Inf (xorb s t)
  | _, _ => NaN
  end.

(** The errors a handler catches. *)
Inductive exn :=
| MongooseError (msg : jsstring)
| OtherError (msg : jsstring).

(** What a pipeline does with the documents that reach [$skip] and
    [$limit]: it drops so many and keeps at most so many, all when no
    number is given. *)
Definition Cut : Type := nat * option nat.

Definition cut {A} (c : Cut) (l : list A) : list A :=
  match snd c with
  | Some n => firstn n (skipn (fst c) l)
  | None => skipn (fst c) l
  end.

(* ================================================================== *)
(** ** Requests *)

(** A [File] of a multipart form: its name, declared media type, content. *)
Record File := { file_name : jsstring; file_type : jsstring; file_bytes : list N }.

(** [FormDataEntryValue]: a string or a [File]. *)
Inductive entry :=
| EStr (s : jsstring)
| EFile (f : File).

(** [FormData]: the entries in the order they were appended. *)
Definition FormData := list (jsstring * entry).

(** [body.get(name)]: the first entry of that name, or [null]. *)
Fixpoint FormData_get (body : FormData) (name : jsstring) : option entry :=
  match body with
  | [] => None
  | (k, v) :: r => if str_eqb k name then Some v else FormData_get r name
  end.

(** [body.getAll(name)] *)
Fixpoint FormData_getAll (body : FormData) (name : jsstring) : list entry :=
  match body with
  | [] => []
  | (k, v) :: r =>
      if str_eqb k name then v :: FormData_getAll r name
      else FormData_getAll r name
  end.

(** [!v] for [v : FormDataEntryValue | null]: [null] and the empty string are falsy,
    any other string and every [File] object are truthy. *)
Definition falsy (v : option entry) : bool :=
  match v with
  | None => true
  | Some (EStr []) => true
  | Some _ => false
  end.

(** [String(v)], as [Array.prototype.join] applies it to every element. *)
Definition toString (v : entry) : jsstring :=
  match v with
  | EStr s => s
  | EFile _ => lit "[object File]"
  end.

(** [URLSearchParams]: the decoded pairs of the query string. *)
Definition SearchParams := list (jsstring * jsstring).

(** [searchParams.get(name)] *)
Fixpoint searchParams_get (q : SearchParams) (name : jsstring) : option jsstring :=
  match q with
  | [] => None
  | (k, v) :: r => if str_eqb k name then Some v else searchParams_get r name
  end.

(** [x || d] for [x : string | null]. *)
Definition or_default (x : option jsstring) (d : jsstring) : jsstring :=
  match x with
  | None | Some [] => d
  | Some s => s
  end.

(* ================================================================== *)
(** ** The store *)

(** Modelled from the spec: the mongoose schemas (models/Post, models/user
    and the taxonomy models) are not among the sources.  A Post carries the
    fields the spec lists; a field written by the route holds the value as
    the route supplied it, and no cast is applied. *)
Record Post := {
  _id : jsstring;
  title : option entry;
  slug : option entry;
  content : option entry;
  excerpt : option entry;
  author : option entry;
  category : option entry;
  subcategory : option entry;
  tags : list jsstring;
  metaTitle : option entry;
  metaDescription : option entry;
  metaKeywords : option entry;
  featuredImage : jsstring;
  imageCredit : option entry;
  status : option entry;
  publish_date : Z;
  updated_date : Z
}.

(** Category, Subcategory and Tag: identifier and name. *)
Record Term := { term_id : jsstring; term_name : option jsstring }.

Record User := { user_id : jsstring }.

(** A write that reached a collaborator. *)
Inductive Event :=
| EvUpload (key : jsstring)
| EvInsert (id : jsstring)
| EvUpdate (id : jsstring)
| EvDelete (id : jsstring).

(** [irregular_paging] is the database's own treatment of a [$skip] and
    [$limit] that are not a count from 0 and a count from 1 that fit 64
    bits (a negative number, a zero limit, an infinity, [NaN]): it throws,
    or it pages in some way.  The route does not decide it. *)
Record World := {
  posts : list Post;
  users : list User;
  categories : list Term;
  subcategories : list Term;
  tagsColl : list Term;
  irregular_paging : double -> double -> exn + Cut;
  bucket : list (jsstring * File);
  trace : list Event
}.

Definition set_posts (ps : list Post) (w : World) : World :=
  {| posts := ps; users := users w; categories := categories w;
     subcategories := subcategories w; tagsColl := tagsColl w;
     irregular_paging := irregular_paging w;
     bucket := bucket w; trace := trace w |}.

Definition set_bucket (b : list (jsstring * File)) (w : World) : World :=
  {| posts := posts w; users := users w; categories := categories w;
     subcategories := subcategories w; tagsColl := tagsColl w;
     irregular_paging := irregular_paging w;
     bucket := b; trace := trace w |}.

Definition emit (ev : Event) (w : World) : World :=
  {| posts := posts w; users := users w; categories := categories w;
     subcategories := subcategories w; tagsColl := tagsColl w;
     irregular_paging := irregular_paging w;
     bucket := bucket w; trace := trace w ++ [ev] |}.

(** A query value matches a stored identifier when it is that string. *)
Definition id_matches (q : entry) (id : jsstring) : bool :=
  match q with
  | EStr s => str_eqb s id
  | EFile _ => false
  end.

(** [Post.findOne({ _id: id })] *)
Definition Post_findOne (id : entry) (ps : list Post) : option Post :=
  find (fun p => id_matches id (_id p)) ps.

(** [User.findOne({ _id: id })] *)
Definition User_findOne (id : jsstring) (us : list User) : option User :=
  find (fun u => str_eqb id (user_id u)) us.

(** The document with the identifier of [p] is replaced by [p]. *)
Fixpoint replace_post (p : Post) (ps : list Post) : list Post :=
  match ps with
  | [] => []
  | x :: r => if str_eqb (_id x) (_id p) then p :: r else x :: replace_post p r
  end.

(** The first document that matches [id] is removed. *)
Fixpoint remove_post (id : entry) (ps : list Post) : list Post :=
  match ps with
  | [] => []
  | x :: r => if id_matches id (_id x) then r else x :: remove_post id r
  end.

(** The identifiers of a collection are unique. *)
Definition unique_ids (w : World) : Prop := NoDup (map _id (posts w)).

(* ================================================================== *)
(** ** The environment of one request *)

(** How the upload of this request goes: the upload task rejects; the
    object is stored but [getDownloadURL] rejects; both succeed. *)
Inductive UploadOutcome :=
| UploadFails (e : jsstring)
| UrlFails (e : jsstring)
| UploadOk (url : jsstring).

Record Env := {
  env_session : option jsstring;     (* getServerSession: the user's _id *)
  env_random : Z;                    (* the 53 bits behind Math.random() *)
  env_upload : UploadOutcome;
  env_save : option exn;             (* what document.save() throws, if it does *)
  env_objectId : jsstring;           (* the _id given to a new document *)
  env_now : Z                        (* the clock, for the schema's date defaults *)
}.

(* ================================================================== *)
(** ** Computations that change the world or throw *)

Inductive result (A : Type) :=
| Return (a : A)
| Throw (e : exn).
Arguments Return {A} a.
Arguments Throw {A} e.

Definition M (A : Type) := World -> result A * World.

Definition ret {A} (a : A) : M A := fun w => (Return a, w).
Definition throw {A} (e : exn) : M A := fun w => (Throw e, w).
Definition bind {A B} (m : M A) (k : A -> M B) : M B :=
  fun w => match m w with
           | (Return a, w') => k a w'
           | (Throw e, w') => (Throw e, w')
           end.
Definition gets {A} (f : World -> A) : M A := fun w => (Return (f w), w).
Definition modify (f : World -> World) : M unit := fun w => (Return tt, f w).

Notation "x <- m ;; k" := (bind m (fun x => k))
  (at level 61, m at next level, right associativity).
Notation "m ;;; k" := (bind m (fun _ => k))
  (at level 61, right associativity).

(** [try { body } catch (e) { handler(e) }] *)
Definition try_catch {A} (body : M A) (handler : exn -> A) : World -> A * World :=
  fun w => match body w with
           | (Return a, w') => (a, w')
           | (Throw e, w') => (handler e, w')
           end.

(* ================================================================== *)
(** ** Responses *)

(** A number as the JSON of an answer carries it: an integer, or [null]
    ([None]) for [NaN] and the infinities. *)
Definition number := option Z.

(** [Math.ceil(a / b)] for a count of documents [a], as JSON carries it.
    A quotient by an infinity is a zero; a quotient by zero is an infinity
    or [NaN].  For a count below 2^53 and a finite divisor the double
    quotient is never rounded onto or across an integer (it is at least
    1/|b| away from the next one, more than half a unit in its last
    place), so its ceiling is the ceiling of the exact quotient. *)
Definition Math_ceil_div (a : Z) (b : double) : number :=
  match b with
  | Fin d => if d =? 0 then None else Some (- ((- a) / d))
  | Inf _ => Some 0
  | NaN => None
  end.

(** One element of the listing: the [$project] stage's output document. *)
Record PostView := {
  v_id : jsstring;
  v_title : option entry;
  v_slug : option entry;
  v_content : option entry;
  v_excerpt : option entry;
  v_author : option entry;
  v_category : option jsstring;
  v_subcategory : option jsstring;
  v_tags : list jsstring;
  v_publish_date : jsstring;
  v_categoryName : option jsstring;
  v_subcategoryName : option jsstring;
  v_tagNames : list (option jsstring);
  v_metaTitle : option entry;
  v_metaDescription : option entry;
  v_metaKeywords : option entry;
  v_featuredImage : jsstring;
  v_imageCredit : option entry;
  v_status : option entry;
  v_updated_date : Z
}.

Inductive Body :=
| BPosts (ps : list PostView) (totalPages : number)   (* { posts, totalPages } *)
| BMessage (m : jsstring)                             (* { message } *)
| BError (m : jsstring)                               (* { status: "error", message } *)
| BErrorObj (e : exn).                                (* { status: "error", message: e } *)

Record Response := { code : Z; body : Body }.

Definition json (b : Body) (c : Z) : Response := {| code := c; body := b |}.

(** The outcomes the spec names. *)
Definition ValidationFailed : Response :=
  json (BMessage (lit "Title, content, author, category, and subcategory are required")) 400.
Definition ValidationFailed_id : Response := json (BMessage (lit "ID is required")) 400.
Definition Unauthorized : Response := json (BError (lit "Unauthorized")) 401.
Definition UserNotFound : Response := json (BError (lit "User not found")) 404.
Definition NotFound : Response := json (BError (lit "Post not found")) 404.
Definition InvalidTarget : Response := json (BError (lit "Invalid Post")) 400.
Definition Created : Response := json (BMessage (lit "Post created successfully")) 201.
Definition Updated : Response := json (BMessage (lit "Post updated successfully")) 200.
Definition Deleted : Response := json (BMessage (lit "Post deleted successfully")) 200.

(* ================================================================== *)
(** ** GET: the listing *)

Definition published : entry := EStr (lit "published").

Definition entry_eqb (a b : entry) : bool :=
  match a, b with
  | EStr s, EStr t => str_eqb s t
  | _, _ => false
  end.

(** [{ status: "published" }] *)
Definition is_published (p : Post) : bool :=
  match status p with
  | Some s => entry_eqb s published
  | None => false
  end.

(** [{ $match: { status: "published" } }] *)
Definition stage_match (ps : list Post) : list Post := filter is_published ps.

Fixpoint insert_desc (p : Post) (l : list Post) : list Post :=
  match l with
  | [] => [p]
  | x :: r =>
      if publish_date x <=? publish_date p then p :: l
      else x :: insert_desc p r
  end.

(** [{ $sort: { publish_date: -1 } }].  Posts of equal date stay in the
    order of the collection; the database promises no order among them. *)
Fixpoint stage_sort (ps : list Post) : list Post :=
  match ps with
  | [] => []
  | p :: r => insert_desc p (stage_sort r)
  end.

(** A document on its way through the pipeline: the post, the category and
    the subcategory it was unwound with, and the tags it was joined with. *)
Record Doc := {
  d_post : Post;
  d_category : option Term;
  d_subcategory : option Term;
  d_tags : list Term
}.

(** [$lookup] on a single reference: the documents of [coll] whose [_id]
    equals the local field. *)
Definition lookup (ref : option entry) (coll : list Term) : list Term :=
  match ref with
  | Some r => filter (fun t => id_matches r (term_id t)) coll
  | None => []
  end.

(** [$unwind] with [preserveNullAndEmptyArrays: true]: one output per
    element, and one output without the field when there is none. *)
Definition unwind {A B} (mk : option Term -> A -> B) (x : A) (ms : list Term) : list B :=
  match ms with
  | [] => [mk None x]
  | _ => map (fun t => mk (Some t) x) ms
  end.

(** [$lookup] + [$unwind] on [category]. *)
Definition stage_category (w : World) (ps : list Post) : list (Post * option Term) :=
  flat_map (fun p => unwind (fun c p => (p, c)) p (lookup (category p) (categories w))) ps.

(** [$lookup] + [$unwind] on [subcategory]. *)
Definition stage_subcategory (w : World) (ds : list (Post * option Term))
  : list (Post * option Term * option Term) :=
  flat_map (fun d => unwind (fun s d => (d, s)) d
                       (lookup (subcategory (fst d)) (subcategories w))) ds.

(** [$lookup] on the array [tags]: the tags whose [_id] is an element. *)
Definition stage_tags (w : World) (ds : list (Post * option Term * option Term))
  : list Doc :=
  map (fun d =>
         let p := fst (fst d) in
         {| d_post := p; d_category := snd (fst d); d_subcategory := snd d;
            d_tags := filter (fun t => existsb (str_eqb (term_id t)) (tags p))
                        (tagsColl w) |}) ds.

Section Listing.

(** [$dateToString] with the format ["%d-%m-%Y"]; the rendering belongs to
    the database and is left open here. *)
Variable dateToString : Z -> jsstring.

(** [$project] *)
Definition project (d : Doc) : PostView :=
  let p := d_post d in
  {| v_id := _id p;
     v_title := title p;
     v_slug := slug p;
     v_content := content p;
     v_excerpt := excerpt p;
     v_author := author p;
     v_category := option_map term_id (d_category d);
     v_subcategory := option_map term_id (d_subcategory d);
     v_tags := map term_id (d_tags d);
     v_publish_date := dateToString (publish_date p);
     v_categoryName :=
       match d_category d with Some c => term_name c | None => None end;
     v_subcategoryName :=
       match d_subcategory d with Some c => term_name c | None => None end;
     v_tagNames := map term_name (d_tags d);
     v_metaTitle := metaTitle p;
     v_metaDescription := metaDescription p;
     v_metaKeywords := metaKeywords p;
     v_featuredImage := featuredImage p;
     v_imageCredit := imageCredit p;
     v_status := status p;
     v_updated_date := updated_date p |}.

(** The documents of the pipeline before [$project], [$skip], [$limit]. *)
Definition joined (w : World) : list Doc :=
  stage_tags w (stage_subcategory w (stage_category w (stage_sort (stage_match (posts w))))).

(** The read model: everything the listing pages through. *)
Definition readModel (w : World) : list PostView := map project (joined w).

(** [{ $skip: skip }, { $limit: limit }] for a count from 0 and a count
    from 1 that fit 64 bits: so many documents are dropped and at most so
    many kept.  Other arguments are not proper counts ([None]). *)
Definition proper_paging (skip limit : double) : option Cut :=
  match skip, limit with
  | Fin s, Fin l =>
      if (0 <=? s) && (s <? 2 ^ 63) && (1 <=? l) && (l <? 2 ^ 63)
      then Some (Z.to_nat s, Some (Z.to_nat l))
      else None
  | _, _ => None
  end.

(** [Post.aggregate(filters)]: with proper counts the pipeline runs; with
    anything else the database does what it does, which may be to throw. *)
Definition aggregate (skip limit : double) : M (list PostView) :=
  fun w =>
    match proper_paging skip limit with
    | Some c => (Return (cut c (readModel w)), w)
    | None =>
        match irregular_paging w skip limit with
        | inl e => (Throw e, w)
        | inr c => (Return (cut c (readModel w)), w)
        end
    end.

(** [Post.countDocuments({ status: "published" })] *)
Definition countDocuments_published : M Z :=
  gets (fun w => Z.of_nat (length (filter is_published (posts w)))).

Definition GET (q : SearchParams) : World -> Response * World :=
  try_catch
    (let page := parseInt (or_default (searchParams_get q (lit "page")) (lit "1")) in
     let limit := parseInt (or_default (searchParams_get q (lit "limit")) (lit "6")) in
     let skip := num_mul (num_sub page (Fin 1)) limit in
     posts <- aggregate skip limit ;;
     totalPosts <- countDocuments_published ;;
     let totalPages := Math_ceil_div totalPosts limit in
     ret (json (BPosts posts totalPages) 200))
    (fun e => match e with
              | MongooseError m | OtherError m => json (BError m) 500
              end).

End Listing.

(* ================================================================== *)
(** ** Math.random and toFixed *)

(** A double in the range of interest is written as its numerator over
    2^53: [v] stands for the number v / 2^53. *)
Definition TWO53 : Z := 2 ^ 53.

(** [Math.random()]: a multiple of 2^-53 in [0, 1). *)
Definition Math_random (e : Env) : Z := env_random e mod TWO53.

(** [x * 100000000000] in double precision: the exact product is kept when
    it has at most 53 significant bits and rounded to 53 bits otherwise. *)
Definition times_1e11 (x : Z) : Z :=
  let n := x * 100000000000 in
  let s := Z.log2 n - 52 in
  if s <=? 0 then n else round_half_even n s.

(** [x.toFixed(0)] for [0 <= x < 1e21]: the integer nearest to [x], the
    larger one on a tie, as a decimal numeral. *)
Definition toFixed0_int (v : Z) : Z := (v + 2 ^ 52) / TWO53.
Definition toFixed0 (v : Z) : jsstring := decimal (toFixed0_int v).

(** The number in the name of an uploaded object:
    [(Math.random() * 100000000000).toFixed(0)]. *)
Definition random_component (e : Env) : jsstring :=
  toFixed0 (times_1e11 (Math_random e)).

(* ================================================================== *)
(** ** The collaborators of a write *)

(** The object stored under [key] is replaced. *)
Definition bucket_put (key : jsstring) (f : File) (b : list (jsstring * File))
  : list (jsstring * File) :=
  (key, f) :: filter (fun kv => negb (str_eqb (fst kv) key)) b.

(** The world after the upload of [f] under [key]. *)
Definition uploaded (key : jsstring) (f : File) (w : World) : World :=
  emit (EvUpload key) (set_bucket (bucket_put key f (bucket w)) w).

(** The world after the document [p] was inserted. *)
Definition inserted (p : Post) (w : World) : World :=
  emit (EvInsert (_id p)) (set_posts (posts w ++ [p]) w).

(** The world after [p] replaced the document of its identifier. *)
Definition replaced (p : Post) (w : World) : World :=
  emit (EvUpdate (_id p)) (set_posts (replace_post p (posts w)) w).

(** The world after the first document matching [id] was removed. *)
Definition removed (id : entry) (p : Post) (w : World) : World :=
  emit (EvDelete (_id p)) (set_posts (remove_post id (posts w)) w).

(** [await uploadBytesResumable(ref(bucket, fileName), file)] *)
Definition uploadBytesResumable (e : Env) (fileName : jsstring) (f : File) : M unit :=
  match env_upload e with
  | UploadFails err => throw (OtherError err)
  | UrlFails _ | UploadOk _ => modify (uploaded fileName f)
  end.

(** [await getDownloadURL(uploadTask.snapshot.ref)] *)
Definition getDownloadURL (e : Env) : M jsstring :=
  match env_upload e with
  | UploadOk url => ret url
  | UrlFails err | UploadFails err => throw (OtherError err)
  end.

(** [await newPost.save()] for a new document. *)
Definition save_new (e : Env) (p : Post) : M unit :=
  match env_save e with
  | Some err => throw err
  | None => modify (inserted p)
  end.

(** [await post.save()] for a document that was found. *)
Definition save_existing (e : Env) (p : Post) : M unit :=
  match env_save e with
  | Some err => throw err
  | None => modify (replaced p)
  end.

(** [await Post.findOneAndDelete({ _id: id })] *)
Definition Post_findOneAndDelete (id : entry) : M (option Post) :=
  fun w =>
    match Post_findOne id (posts w) with
    | Some p => (Return (Some p), removed id p w)
    | None => (Return None, w)
    end.

Definition with_featuredImage (url : jsstring) (p : Post) : Post :=
  {| _id := _id p; title := title p; slug := slug p; content := content p;
     excerpt := excerpt p; author := author p; category := category p;
     subcategory := subcategory p; tags := tags p; metaTitle := metaTitle p;
     metaDescription := metaDescription p; metaKeywords := metaKeywords p;
     featuredImage := url; imageCredit := imageCredit p; status := status p;
     publish_date := publish_date p; updated_date := updated_date p |}.

(** [file.type.split("/").pop()] *)
Definition extension (f : File) : jsstring := pop (split SLASH (file_type f)).

Definition DOT : cu := 46%N.

(** [tags.join(",")] then [.split(",").map((tag) => tag.trim())] *)
Definition tagsString (tags : list entry) : jsstring := join COMMA (map toString tags).
Definition filteredTags (tags : list entry) : list jsstring :=
  map trim (split COMMA (tagsString tags)).

(** The catch block of [POST] and [PUT]. *)
Definition catch_write (e : exn) : Response :=
  match e with
  | MongooseError m => json (BError m) 400
  | OtherError _ => json (BErrorObj e) 500
  end.

(** [!title || !content || !author || !category || !subcategory] *)
Definition required_missing (body : FormData) : bool :=
  falsy (FormData_get body (lit "title"))
  || falsy (FormData_get body (lit "content"))
  || falsy (FormData_get body (lit "author"))
  || falsy (FormData_get body (lit "category"))
  || falsy (FormData_get body (lit "subcategory")).

(* ================================================================== *)
(** ** POST: create *)

(** [new Post({ ... })]: the identifier and the dates come from the schema. *)
Definition new_Post (e : Env) (body : FormData) : Post :=
  {| _id := env_objectId e;
     title := FormData_get body (lit "title");
     slug := FormData_get body (lit "slug");
     content := FormData_get body (lit "content");
     excerpt := FormData_get body (lit "excerpt");
     author := FormData_get body (lit "author");
     category := FormData_get body (lit "category");
     subcategory := FormData_get body (lit "subcategory");
     tags := filteredTags (FormData_getAll body (lit "tags"));
     metaTitle := FormData_get body (lit "metaTitle");
     metaDescription := FormData_get body (lit "metaDescription");
     metaKeywords := FormData_get body (lit "metaKeywords");
     featuredImage := [];
     imageCredit := FormData_get body (lit "imageCredit");
     status := FormData_get body (lit "status");
     publish_date := env_now e;
     updated_date := env_now e |}.

(** The object name of a created post's image. *)
Definition create_fileName (e : Env) (f : File) : jsstring :=
  lit "the-educative/blog/post-" ++ random_component e ++ DOT :: extension f.

Definition POST (e : Env) (body : FormData) : World -> Response * World :=
  if required_missing body then fun w => (ValidationFailed, w)
  else
    match env_session e with
    | None => fun w => (Unauthorized, w)
    | Some user =>
        try_catch
          (currentUser <- gets (fun w => User_findOne user (users w)) ;;
           match currentUser with
           | None => ret UserNotFound
           | Some _ =>
               let newPost := new_Post e body in
               newPost <-
                 match FormData_get body (lit "featuredImage") with
                 | Some (EFile file) =>
                     let fileName := create_fileName e file in
                     uploadBytesResumable e fileName file ;;;
                     downloadURL <- getDownloadURL e ;;
                     ret (with_featuredImage downloadURL newPost)
                 | _ => ret newPost
                 end ;;
               save_new e newPost ;;;
               ret Created
           end)
          catch_write
    end.

(* ================================================================== *)
(** ** PUT: update *)

(** The twelve assignments [post.title = title; ... post.status = status]. *)
Definition assign_fields (body : FormData) (p : Post) : Post :=
  {| _id := _id p;
     title := FormData_get body (lit "title");
     slug := slug p;
     content := FormData_get body (lit "content");
     excerpt := FormData_get body (lit "excerpt");
     author := FormData_get body (lit "author");
     category := FormData_get body (lit "category");
     subcategory := FormData_get body (lit "subcategory");
     tags := filteredTags (FormData_getAll body (lit "tags"));
     metaTitle := FormData_get body (lit "metaTitle");
     metaDescription := FormData_get body (lit "metaDescription");
     metaKeywords := FormData_get body (lit "metaKeywords");
     featuredImage := featuredImage p;
     imageCredit := FormData_get body (lit "imageCredit");
     status := FormData_get body (lit "status");
     publish_date := publish_date p;
     updated_date := updated_date p |}.

(** The object name of an updated post's image: [post-${id}.${ext}]. *)
Definition update_fileName (id : entry) (f : File) : jsstring :=
  lit "the-educative/blog/post-" ++ toString id ++ DOT :: extension f.

Definition PUT (e : Env) (body : FormData) : World -> Response * World :=
  if required_missing body then fun w => (ValidationFailed, w)
  else
    match env_session e with
    | None => fun w => (Unauthorized, w)
    | Some user =>
        try_catch
          (currentUser <- gets (fun w => User_findOne user (users w)) ;;
           match currentUser with
           | None => ret UserNotFound
           | Some _ =>
               let id := FormData_get body (lit "_id") in
               if falsy id then ret InvalidTarget
               else
                 match id with
                 | None => ret InvalidTarget
                 | Some id =>
                     post <- gets (fun w => Post_findOne id (posts w)) ;;
                     match post with
                     | None => ret NotFound
                     | Some post =>
                         let post := assign_fields body post in
                         post <-
                           match FormData_get body (lit "featuredImage") with
                           | Some (EFile file) =>
                               let fileName := update_fileName id file in
                               uploadBytesResumable e fileName file ;;;
                               downloadURL <- getDownloadURL e ;;
                               ret (with_featuredImage downloadURL post)
                           | _ => ret post
                           end ;;
                         save_existing e post ;;;
                         ret Updated
                     end
                 end
           end)
          catch_write
    end.

(* ================================================================== *)
(** ** DELETE *)

(** The [id] member of the JSON body is a string, or absent ([None]);
    [!id] holds of the absent and of the empty one. *)

Definition DELETE (e : Env) (id : option jsstring) : World -> Response * World :=
  match id with
  | None | Some [] => fun w => (ValidationFailed_id, w)
  | Some id =>
      match env_session e with
      | None => fun w => (Unauthorized, w)
      | Some user =>
          try_catch
            (currentUser <- gets (fun w => User_findOne user (users w)) ;;
             match currentUser with
             | None => ret UserNotFound
             | Some _ =>
                 post <- Post_findOneAndDelete (EStr id) ;;
                 match post with
                 | None => ret NotFound
                 | Some _ => ret Deleted
                 end
             end)
            (fun e => match e with
                      | MongooseError m | OtherError m => json (BError m) 500
                      end)
      end
  end.

(* ================================================================== *)
(** ** The three writes as one operation *)

Inductive Operation :=
| Create (body : FormData)
| Update (body : FormData)
| Delete (id : option jsstring).

Definition run (e : Env) (op : Operation) : World -> Response * World :=
  match op with
  | Create body => POST e body
  | Update body => PUT e body
  | Delete id => DELETE e id
  end.

(* ================================================================== *)
(** ** The vocabulary of the properties *)

(** The fields a create and an update must carry. *)
Definition required_fields : list jsstring :=
  [lit "title"; lit "content"; lit "author"; lit "category"; lit "subcategory"].

(** The payload lacks what the operation requires: one of the required
    fields of a create or an update, the identifier of a delete. *)
Definition payload_missing (op : Operation) : Prop :=
  match op with
  | Create body | Update body =>
      exists f, In f required_fields /\ falsy (FormData_get body f) = true
  | Delete id => id = None \/ id = Some []
  end.

(** The validation failure of each operation. *)
Definition validation_failure (op : Operation) : Response :=
  match op with
  | Create _ | Update _ => ValidationFailed
  | Delete _ => ValidationFailed_id
  end.

(** The identifier [id] resolves to no post of the store. *)
Definition unresolved (id : entry) (w : World) : Prop :=
  forall p, In p (posts w) -> id <> EStr (_id p).

(** The user identifier [u] resolves to no user of the store. *)
Definition unknown_user (u : jsstring) (w : World) : Prop :=
  forall usr, In usr (users w) -> user_id usr <> u.

(** [a] comes before [b] when its key is not the smaller one. *)
Definition desc_by {A} (key : A -> Z) (a b : A) : Prop := key b <= key a.

(** The publication date of the post behind a document of the pipeline. *)
Definition doc_date (d : Doc) : Z := publish_date (d_post d).

(** The number of published posts of the store. *)
Definition totalPublished (w : World) : Z :=
  Z.of_nat (length (filter is_published (posts w))).

(** [t] is the ceiling of [a / b]. *)
Definition is_ceiling (t a b : Z) : Prop := (t - 1) * b < a <= t * b.

(** The page of the read model that [$skip] and [$limit] cut out. *)
Definition page_of {A} (page limit : Z) (l : list A) : list A :=
  firstn (Z.to_nat limit) (skipn (Z.to_nat ((page - 1) * limit)) l).

(** The integer a string of decimal digits denotes, read onto [a]. *)
Definition numeral_value (s : jsstring) (a : Z) : Z :=
  fold_left (fun a c => 10 * a + (Z.of_N c - 48)) s a.

(** The view [v] shows the post [p]: each field that [$project] passes on
    is the post's, and the date is the post's date, rendered. *)
Definition view_of (dateToString : Z -> jsstring) (v : PostView) (p : Post) : Prop :=
  v_id v = _id p /\ v_title v = title p /\ v_slug v = slug p
  /\ v_content v = content p /\ v_excerpt v = excerpt p
  /\ v_author v = author p
  /\ v_publish_date v = dateToString (publish_date p)
  /\ v_metaTitle v = metaTitle p /\ v_metaDescription v = metaDescription p
  /\ v_metaKeywords v = metaKeywords p /\ v_featuredImage v = featuredImage p
  /\ v_imageCredit v = imageCredit p /\ v_status v = status p
  /\ v_updated_date v = updated_date p.

(** Page, limit and the skip they give are integers the doubles hold
    exactly, so that the route computes with them without rounding. *)
Definition exact_paging (page limit : Z) : Prop :=
  page < 2 ^ 53 /\ limit < 2 ^ 53 /\ (page - 1) * limit < 2 ^ 53.

(** The identifiers of a taxonomy collection are unique. *)
Definition unique_terms (coll : list Term) : Prop := NoDup (map term_id coll).

(* ================================================================== *)
(** ** Proof tools *)

(** The handlers and the monad are opened up to their case analysis. *)
Ltac unfold_handler :=
  unfold POST, PUT, DELETE, try_catch, bind, gets, ret, throw, modify,
    uploadBytesResumable, getDownloadURL, save_new, save_existing,
    Post_findOneAndDelete.

(** Closes a goal whose hypothesis [H] equates the outcomes of two
    requests that differ in their status code. *)
Ltac wrong_code H :=
  exfalso; apply (f_equal (fun rw : Response * World => code (fst rw))) in H;
  simpl in H;
  repeat match type of H with
         | context [catch_write ?x] => destruct x; simpl in H
         end;
  discriminate H.

(* ================================================================== *)
(** ** A formatter and a sample world, for the examples *)

Definition pad2 (n : Z) : jsstring := if n <? 10 then digit 0 :: decimal n else decimal n.

Definition pad4 (n : Z) : jsstring :=
  if n <? 10 then digit 0 :: digit 0 :: digit 0 :: decimal n
  else if n <? 100 then digit 0 :: digit 0 :: decimal n
  else if n <? 1000 then digit 0 :: decimal n
  else decimal n.

(** Day, month and year (UTC) of a time in milliseconds since 1970. *)
Definition civil (ms : Z) : Z * Z * Z :=
  let z := ms / 86400000 + 719468 in
  let era := z / 146097 in
  let doe := z - era * 146097 in
  let yoe := (doe - doe / 1460 + doe / 36524 - doe / 146096) / 365 in
  let doy := doe - (365 * yoe + yoe / 4 - yoe / 100) in
  let mp := (5 * doy + 2) / 153 in
  let d := doy - (153 * mp + 2) / 5 + 1 in
  let m := if mp <? 10 then mp + 3 else mp - 9 in
  let y := yoe + era * 400 + (if m <=? 2 then 1 else 0) in
  (d, m, y).

(** ["%d-%m-%Y"] for the years 0 to 9999. *)
Definition dmy (ms : Z) : jsstring :=
  let '(d, m, y) := civil ms in
  pad2 d ++ 45%N :: pad2 m ++ 45%N :: pad4 y.

Module Sample.

Definition mkPost (id : jsstring) (st : string) (cat : string) (sub : string)
    (tg : list jsstring) (date : Z) : Post :=
  {| _id := id; title := Some (EStr id); slug := Some (EStr id);
     content := Some (EStr (lit "text")); excerpt := None;
     author := Some (EStr (lit "u1")); category := Some (EStr (lit cat));
     subcategory := Some (EStr (lit sub)); tags := tg;
     metaTitle := None; metaDescription := None; metaKeywords := None;
     featuredImage := []; imageCredit := None; status := Some (EStr (lit st));
     publish_date := date; updated_date := date |}.

Definition term (id name : string) : Term :=
  {| term_id := lit id; term_name := Some (lit name) |}.

Definition world : World :=
  {| posts := [ mkPost (lit "p1") "published" "c1" "s1" [lit "t1"] 1000;
                mkPost (lit "p2") "draft" "c1" "s1" [] 5000;
                mkPost (lit "p3") "published" "gone" "s1" [lit "t2"; lit "t1"] 3000;
                mkPost (lit "p4") "published" "c1" "lost" [] 2000 ];
     users := [ {| user_id := lit "u1" |} ];
     categories := [ term "c1" "Science" ];
     subcategories := [ term "s1" "Physics" ];
     tagsColl := [ term "t1" "news"; term "t2" "howto" ];
     irregular_paging := fun _ _ => inl (OtherError (lit "invalid stage argument"));
     bucket := [];
     trace := [] |}.

Definition png : File :=
  {| file_name := lit "cover.png"; file_type := lit "image/png"; file_bytes := [137; 80]%N |}.

Definition env : Env :=
  {| env_session := Some (lit "u1"); env_random := 2 ^ 49;
     env_upload := UploadOk (lit "https://cdn/x"); env_save := None;
     env_objectId := lit "p9"; env_now := 9000 |}.

Definition form (l : list (string * string)) : FormData :=
  map (fun kv => (lit (fst kv), EStr (lit (snd kv)))) l.

Definition fields : FormData :=
  form [("title", "T"); ("content", "C"); ("author", "u1");
        ("category", "c1"); ("subcategory", "s1")]%string.

(** A create with an image attached. *)
Definition upload_form : FormData := fields ++ [(lit "featuredImage", EFile png)].

(** An update of the post p1 with two tag values. *)
Definition update_form : FormData :=
  (lit "_id", EStr (lit "p1")) :: fields
  ++ [(lit "tags", EStr (lit " a")); (lit "tags", EStr (lit "b "))].

(** An update that names a post the store does not have. *)
Definition stray_form : FormData := (lit "_id", EStr (lit "p7")) :: fields.

Definition with_session (s : option jsstring) (e : Env) : Env :=
  {| env_session := s; env_random := env_random e; env_upload := env_upload e;
     env_save := env_save e; env_objectId := env_objectId e; env_now := env_now e |}.

Definition with_upload (u : UploadOutcome) (e : Env) : Env :=
  {| env_session := env_session e; env_random := env_random e; env_upload := u;
     env_save := env_save e; env_objectId := env_objectId e; env_now := env_now e |}.

(** Thirteen published posts, p1 the oldest. *)
Definition thirteen : World :=
  {| posts := map (fun i => mkPost (lit "p" ++ decimal (Z.of_nat i)) "published"
                             "c1" "s1" [] (Z.of_nat i))
                (seq 1 13);
     users := []; categories := [term "c1" "Science"];
     subcategories := [term "s1" "Physics"]; tagsColl := [];
     irregular_paging := fun _ _ => inl (OtherError (lit "invalid stage argument"));
     bucket := []; trace := [] |}.

End Sample.

(* ================================================================== *)
(** ** The vocabulary of the further properties *)

(** The answer of an operation that went through. *)
Definition success (op : Operation) : Response :=
  match op with
  | Create _ => Created
  | Update _ => Updated
  | Delete _ => Deleted
  end.

(** The file attached to a form as its featuredImage, if there is one. *)
Definition attached (body : FormData) : option File :=
  match FormData_get body (lit "featuredImage") with
  | Some (EFile f) => Some f
  | _ => None
  end.

(** The user identifier [u] is the one of a user of the store. *)
Definition known_user (u : jsstring) (w : World) : Prop :=
  exists usr, In usr (users w) /\ user_id usr = u.

(** The environment of a request made under another session. *)
Definition set_session (s : option jsstring) (e : Env) : Env :=
  {| env_session := s; env_random := env_random e; env_upload := env_upload e;
     env_save := env_save e; env_objectId := env_objectId e; env_now := env_now e |}.

(** The form names, under [_id], a post of the store. *)
Definition targets (body : FormData) (w : World) : Prop :=
  exists id old,
    FormData_get body (lit "_id") = Some id /\ falsy (Some id) = false
    /\ Post_findOne id (posts w) = Some old.

(** The posts of the answer of a listing; none when it is a failure. *)
Definition listed (dts : Z -> jsstring) (q : SearchParams) (w : World)
  : list PostView :=
  match body (fst (GET dts q w)) with
  | BPosts ps _ => ps
  | _ => []
  end.

(** The query string [?page=<page>&limit=<limit>], in decimal numerals. *)
Definition query (page limit : Z) : SearchParams :=
  [(lit "page", decimal page); (lit "limit", decimal limit)].

(** The documents the joins make of one post. *)
Definition docs_of (w : World) (p : Post) : list Doc :=
  stage_tags w (stage_subcategory w (stage_category w [p])).

(** A tag as the round trip leaves it: nothing to trim, no comma. *)
Definition normalized (t : jsstring) : Prop :=
  trim t = t /\ contains COMMA t = false.

(** A string that does not start with white space. *)
Definition starts_clean (s : jsstring) : Prop :=
  match s with
  | c :: _ => is_space c = false
  | [] => True
  end.

(** The object stored under [key], if there is one. *)
Definition bucket_get (key : jsstring) (b : list (jsstring * File)) : option File :=
  option_map snd (find (fun kv => str_eqb (fst kv) key) b).

(* ================================================================== *)
(** ** More sample requests *)

Module Cases.

(** The sample store with its draft only. *)
Definition drafts : World :=
  set_posts [Sample.mkPost (lit "p2") "draft" "c1" "s1" [] 5000] Sample.world.

(** The sample store with a second user. *)
Definition two_users : World :=
  {| posts := posts Sample.world;
     users := [ {| user_id := lit "u1" |}; {| user_id := lit "u2" |} ];
     categories := categories Sample.world;
     subcategories := subcategories Sample.world;
     tagsColl := tagsColl Sample.world;
     irregular_paging := irregular_paging Sample.world;
     bucket := []; trace := [] |}.

(** The sample store on a database that pages through everything when
    [$skip] and [$limit] are not proper counts. *)
Definition lenient : World :=
  {| posts := posts Sample.world; users := users Sample.world;
     categories := categories Sample.world;
     subcategories := subcategories Sample.world;
     tagsColl := tagsColl Sample.world;
     irregular_paging := fun _ _ => inr (0%nat, None);
     bucket := []; trace := [] |}.

(** A request whose save is refused by the schema. *)
Definition save_refused : Env :=
  {| env_session := Some (lit "u1"); env_random := 2 ^ 49;
     env_upload := UploadOk (lit "https://cdn/x");
     env_save := Some (MongooseError (lit "Post validation failed"));
     env_objectId := lit "p9"; env_now := 9000 |}.

(** A create of a published post. *)
Definition published_form : FormData :=
  Sample.fields ++ [(lit "status", EStr (lit "published"))].

(** An update of the post p1 with an image attached. *)
Definition update_with_file : FormData :=
  Sample.update_form ++ [(lit "featuredImage", EFile Sample.png)].

(** The documents the pipeline makes of the posts p3, p4 and p1. *)
Definition doc_p3 : Doc :=
  {| d_post := Sample.mkPost (lit "p3") "published" "gone" "s1" [lit "t2"; lit "t1"] 3000;
     d_category := None;
     d_subcategory := Some (Sample.term "s1" "Physics");
     d_tags := [Sample.term "t1" "news"; Sample.term "t2" "howto"] |}.

Definition doc_p4 : Doc :=
  {| d_post := Sample.mkPost (lit "p4") "published" "c1" "lost" [] 2000;
     d_category := Some (Sample.term "c1" "Science");
     d_subcategory := None;
     d_tags := [] |}.

Definition doc_p1 : Doc :=
  {| d_post := Sample.mkPost (lit "p1") "published" "c1" "s1" [lit "t1"] 1000;
     d_category := Some (Sample.term "c1" "Science");
     d_subcategory := Some (Sample.term "s1" "Physics");
     d_tags := [Sample.term "t1" "news"] |}.

End Cases.

(* ================================================================== *)
(** ** The definitions at work *)

Example split_sample :
  split COMMA (lit "a,b ,,c") = [lit "a"; lit "b "; []; lit "c"].
Proof. reflexivity. Qed.

Example join_sample : join COMMA [lit "a"; lit "b"] = lit "a,b".
Proof. reflexivity. Qed.

Example trim_sample : trim (lit "  a b ") = lit "a b".
Proof. reflexivity. Qed.

Example parseInt_samples :
  parseInt (lit " 42px") = Fin 42 /\ parseInt (lit "-7") = Fin (-7)
  /\ parseInt (lit "abc") = NaN /\ parseInt ([]) = NaN
  /\ parseInt (lit "9007199254740993") = Fin 9007199254740992
  /\ parseInt (decimal (10 ^ 309)) = Inf false
  /\ num_mul (num_sub (Fin 1) (Fin 1)) (Inf false) = NaN
  /\ num_mul (Fin 9007199254740993) (Fin 3) = Fin 27021597764222980.
Proof. repeat split; vm_compute; reflexivity. Qed.

Example decimal_samples :
  decimal 0 = lit "0" /\ decimal 6250000000 = lit "6250000000"
  /\ decimal 100000000000 = lit "100000000000" /\ decimal 9 = lit "9"
  /\ decimal 10 = lit "10".
Proof. repeat split; reflexivity. Qed.

Example random_component_sample :
  random_component
    {| env_session := None; env_random := 2 ^ 52; env_upload := UploadFails [];
       env_save := None; env_objectId := []; env_now := 0 |}
  = lit "50000000000".
Proof. vm_compute. reflexivity. Qed.

Example dmy_samples :
  dmy 0 = lit "01-01-1970" /\ dmy 1709164800000 = lit "29-02-2024"
  /\ dmy 951782400000 = lit "29-02-2000" /\ dmy 1735689599999 = lit "31-12-2024".
Proof. repeat split; vm_compute; reflexivity. Qed.

Example GET_sample :
  fst (GET dmy [(lit "limit", lit "2"); (lit "page", lit "2")] Sample.world)
  = json (BPosts
            (map (project dmy)
               [ {| d_post := Sample.mkPost (lit "p1") "published" "c1" "s1" [lit "t1"] 1000;
                    d_category := Some (Sample.term "c1" "Science");
                    d_subcategory := Some (Sample.term "s1" "Physics");
                    d_tags := [Sample.term "t1" "news"] |} ])
            (Some 2)) 200.
Proof. vm_compute. reflexivity. Qed.

(* ================================================================== *)
(** ** Strings: equality, split and join *)

Lemma str_eqb_eq (a b : jsstring) : str_eqb a b = true <-> a = b.
Proof.
  revert b; induction a as [|x a IH]; intros [|y b]; simpl;
    try (split; [discriminate | discriminate]); try tauto.
  unfold cu_eqb. rewrite andb_true_iff, N.eqb_eq, IH.
  split; [intros [-> ->]; reflexivity | intros E; injection E; auto].
Qed.

Lemma str_eqb_refl (a : jsstring) : str_eqb a a = true.
Proof. apply str_eqb_eq; reflexivity. Qed.

Lemma str_eqb_sym (a b : jsstring) : str_eqb a b = str_eqb b a.
Proof.
  destruct (str_eqb a b) eqn:E, (str_eqb b a) eqn:F; auto.
  - apply str_eqb_eq in E; subst. now rewrite str_eqb_refl in F.
  - apply str_eqb_eq in F; subst. now rewrite str_eqb_refl in E.
Qed.

Lemma split_not_nil (sep : cu) (s : jsstring) : split sep s <> [].
Proof.
  destruct s as [|c r]; simpl; [discriminate|].
  destruct (cu_eqb c sep); [discriminate|].
  destruct (split sep r); discriminate.
Qed.

(** Splitting distributes over a separator that joins two strings. *)
Lemma split_app (sep : cu) (a b : jsstring) :
  split sep (a ++ sep :: b) = split sep a ++ split sep b.
Proof.
  induction a as [|c a IH]; simpl.
  - unfold cu_eqb; rewrite N.eqb_refl; reflexivity.
  - destruct (cu_eqb c sep); [rewrite IH; reflexivity|].
    rewrite IH.
    destruct (split sep a) as [|seg segs] eqn:E;
      [exfalso; exact (split_not_nil _ _ E) | reflexivity].
Qed.

(** Joining and splitting again splits every element on its own. *)
Lemma split_join (sep : cu) (l : list jsstring) :
  l <> [] -> split sep (join sep l) = flat_map (split sep) l.
Proof.
  induction l as [|s r IH]; [congruence | intros _].
  destruct r as [|s2 r].
  - simpl. now rewrite app_nil_r.
  - change (join sep (s :: s2 :: r)) with (s ++ sep :: join sep (s2 :: r)).
    rewrite split_app, IH by discriminate. reflexivity.
Qed.

Lemma split_without_sep (sep : cu) (s : jsstring) :
  contains sep s = false -> split sep s = [s].
Proof.
  unfold contains. induction s as [|c r IH]; simpl; [reflexivity|].
  rewrite orb_false_iff. intros [Hc Hr].
  assert (E : cu_eqb c sep = false).
  { unfold cu_eqb in *. now rewrite N.eqb_sym. }
  rewrite E, (IH Hr). reflexivity.
Qed.

Lemma split_with_sep (sep : cu) (s : jsstring) :
  contains sep s = true -> (2 <= length (split sep s))%nat.
Proof.
  unfold contains. induction s as [|c r IH]; simpl; [discriminate|].
  intros H. destruct (cu_eqb c sep) eqn:E.
  - simpl. pose proof (split_not_nil sep r).
    destruct (split sep r); [congruence | simpl; lia].
  - assert (F : cu_eqb sep c = false).
    { unfold cu_eqb in *. now rewrite N.eqb_sym. }
    rewrite F in H. simpl in H. specialize (IH H).
    destruct (split sep r); simpl in *; lia.
Qed.

Lemma flat_map_singleton {A B} (f : A -> list B) (g : A -> B) (l : list A) :
  (forall x, In x l -> f x = [g x]) -> flat_map f l = map g l.
Proof.
  induction l as [|x l IH]; simpl; intros H; [reflexivity|].
  rewrite (H x) by auto. simpl. f_equal. apply IH. auto.
Qed.

(** What the round trip does to a non-empty list of tag values. *)
Lemma filteredTags_flat_map (vs : list entry) :
  vs <> [] ->
  filteredTags vs = flat_map (fun v => map trim (split COMMA (toString v))) vs.
Proof.
  intros H. unfold filteredTags, tagsString.
  rewrite split_join by (destruct vs; [congruence | discriminate]).
  rewrite flat_map_concat_map, map_map, concat_map, map_map.
  now rewrite <- flat_map_concat_map.
Qed.

Lemma filteredTags_without_sep (vs : list entry) :
  vs <> [] ->
  (forall v, In v vs -> contains COMMA (toString v) = false) ->
  filteredTags vs = map (fun v => trim (toString v)) vs.
Proof.
  intros H Hs. rewrite filteredTags_flat_map by assumption.
  apply flat_map_singleton. intros v Hv.
  now rewrite split_without_sep by auto.
Qed.

(* ================================================================== *)
(** ** What a successful write did *)

Lemma POST_Created_inv (e : Env) (body : FormData) (w w' : World) :
  POST e body w = (Created, w') ->
  required_missing body = false
  /\ (exists u usr, env_session e = Some u /\ User_findOne u (users w) = Some usr)
  /\ env_save e = None
  /\ match FormData_get body (lit "featuredImage") with
     | Some (EFile f) =>
         exists url, env_upload e = UploadOk url
           /\ w' = inserted (with_featuredImage url (new_Post e body))
                     (uploaded (create_fileName e f) f w)
     | _ => w' = inserted (new_Post e body) w
     end.
Proof.
  unfold_handler. intros H.
  destruct (required_missing body); [wrong_code H|].
  destruct (env_session e) as [u|]; [|wrong_code H].
  destruct (User_findOne u (users w)) as [usr|] eqn:Hu; [|wrong_code H].
  split; [reflexivity|]. split; [exists u, usr; auto|].
  destruct (FormData_get body (lit "featuredImage")) as [[s|f]|].
  - destruct (env_save e); [wrong_code H|].
    injection H as <-. auto.
  - destruct (env_upload e) as [err|err|url]; try wrong_code H.
    destruct (env_save e); [wrong_code H|].
    injection H as <-. split; [reflexivity|]. exists url; auto.
  - destruct (env_save e); [wrong_code H|].
    injection H as <-. auto.
Qed.

Lemma PUT_Updated_inv (e : Env) (body : FormData) (w w' : World) :
  PUT e body w = (Updated, w') ->
  required_missing body = false
  /\ (exists u usr, env_session e = Some u /\ User_findOne u (users w) = Some usr)
  /\ env_save e = None
  /\ exists id post,
       FormData_get body (lit "_id") = Some id
       /\ Post_findOne id (posts w) = Some post
       /\ match FormData_get body (lit "featuredImage") with
          | Some (EFile f) =>
              exists url, env_upload e = UploadOk url
                /\ w' = replaced (with_featuredImage url (assign_fields body post))
                          (uploaded (update_fileName id f) f w)
          | _ => w' = replaced (assign_fields body post) w
          end.
Proof.
  unfold_handler. intros H.
  destruct (required_missing body); [wrong_code H|].
  destruct (env_session e) as [u|]; [|wrong_code H].
  destruct (User_findOne u (users w)) as [usr|] eqn:Hu; [|wrong_code H].
  split; [reflexivity|]. split; [exists u, usr; auto|].
  destruct (FormData_get body (lit "_id")) as [id|]; [|wrong_code H].
  destruct (falsy (Some id)); [wrong_code H|].
  destruct (Post_findOne id (posts w)) as [post|] eqn:Hp; [|wrong_code H].
  destruct (FormData_get body (lit "featuredImage")) as [[s|f]|].
  - destruct (env_save e); [wrong_code H|].
    injection H as <-. split; [reflexivity|]. exists id, post; auto.
  - destruct (env_upload e) as [err|err|url]; try wrong_code H.
    destruct (env_save e); [wrong_code H|].
    injection H as <-. split; [reflexivity|]. exists id, post.
    split; [reflexivity|]. split; [assumption|]. exists url; auto.
  - destruct (env_save e); [wrong_code H|].
    injection H as <-. split; [reflexivity|]. exists id, post; auto.
Qed.

(* ================================================================== *)
(** ** Finding, replacing and removing documents *)

Lemma id_matches_iff (id : entry) (a : jsstring) :
  id_matches id a = true <-> id = EStr a.
Proof.
  destruct id as [s|f]; simpl.
  - rewrite str_eqb_eq. split; [intros ->; reflexivity | intros E; now injection E].
  - split; discriminate.
Qed.

Lemma id_matches_false (id : entry) (a : jsstring) :
  id_matches id a = false <-> id <> EStr a.
Proof.
  rewrite <- id_matches_iff. destruct (id_matches id a); split; congruence.
Qed.

Lemma Post_findOne_None (id : entry) (ps : list Post) :
  Post_findOne id ps = None <-> (forall p, In p ps -> id <> EStr (_id p)).
Proof.
  unfold Post_findOne. split.
  - intros H p Hp. apply id_matches_false.
    exact (find_none _ _ H p Hp).
  - intros H. induction ps as [|x r IH]; simpl; [reflexivity|].
    rewrite (proj2 (id_matches_false id (_id x))) by (apply H; simpl; auto).
    apply IH. intros p Hp. apply H. simpl; auto.
Qed.

Lemma Post_findOne_Some (id : entry) (ps : list Post) (p : Post) :
  Post_findOne id ps = Some p -> In p ps /\ id = EStr (_id p).
Proof.
  unfold Post_findOne. intros H. apply find_some in H.
  now rewrite id_matches_iff in H.
Qed.

Lemma User_findOne_None (u : jsstring) (us : list User) :
  User_findOne u us = None <-> (forall usr, In usr us -> user_id usr <> u).
Proof.
  unfold User_findOne. split.
  - intros H usr Hin E. pose proof (find_none _ _ H usr Hin) as F.
    simpl in F. rewrite E, str_eqb_refl in F. discriminate.
  - intros H. induction us as [|x r IH]; simpl; [reflexivity|].
    destruct (str_eqb u (user_id x)) eqn:E.
    + apply str_eqb_eq in E. exfalso. apply (H x); simpl; auto.
    + apply IH. intros usr Hin. apply H. simpl; auto.
Qed.

Lemma find_replace_same (id : entry) (ps : list Post) (old new : Post) :
  Post_findOne id ps = Some old -> _id new = _id old ->
  Post_findOne id (replace_post new ps) = Some new.
Proof.
  unfold Post_findOne. intros H E.
  assert (M : id_matches id (_id old) = true).
  { apply find_some in H. tauto. }
  induction ps as [|x r IH]; simpl in *; [discriminate|].
  destruct (id_matches id (_id x)) eqn:Hx.
  - injection H as ->. rewrite E, str_eqb_refl. simpl. now rewrite E, M.
  - destruct (str_eqb (_id x) (_id new)) eqn:Hn.
    + apply str_eqb_eq in Hn. rewrite Hn, E, M in Hx. discriminate.
    + simpl. rewrite Hx. now apply IH.
Qed.

Lemma find_replace_other (id : entry) (ps : list Post) (new : Post) :
  id <> EStr (_id new) ->
  Post_findOne id (replace_post new ps) = Post_findOne id ps.
Proof.
  unfold Post_findOne. intros N. apply id_matches_false in N.
  induction ps as [|x r IH]; simpl; [reflexivity|].
  destruct (str_eqb (_id x) (_id new)) eqn:Hn.
  - apply str_eqb_eq in Hn. simpl. now rewrite Hn, N.
  - simpl. now rewrite IH.
Qed.

Lemma length_replace_post (p : Post) (ps : list Post) :
  length (replace_post p ps) = length ps.
Proof.
  induction ps as [|x r IH]; simpl; [reflexivity|].
  destruct (str_eqb (_id x) (_id p)); simpl; congruence.
Qed.

Lemma find_remove_same (id : entry) (ps : list Post) :
  NoDup (map _id ps) -> Post_findOne id (remove_post id ps) = None.
Proof.
  unfold Post_findOne. induction ps as [|x r IH]; simpl; intros ND; [reflexivity|].
  inversion ND as [|a l Hnotin ND']; subst.
  destruct (id_matches id (_id x)) eqn:Hx.
  - apply id_matches_iff in Hx. subst id.
    apply (Post_findOne_None (EStr (_id x)) r). intros p Hp E.
    injection E as E. apply Hnotin. rewrite E. now apply in_map.
  - simpl. rewrite Hx. now apply IH.
Qed.

Lemma In_remove_post (id : entry) (ps : list Post) (q : Post) :
  NoDup (map _id ps) ->
  (In q (remove_post id ps) <-> In q ps /\ id <> EStr (_id q)).
Proof.
  induction ps as [|x r IH]; simpl; intros ND; [tauto|].
  inversion ND as [|a l Hnotin ND']; subst.
  destruct (id_matches id (_id x)) eqn:Hx.
  - apply id_matches_iff in Hx. subst id. split.
    + intros Hq. split; [auto|]. intros E. injection E as E.
      apply Hnotin. rewrite E. now apply in_map.
    + intros [[->|Hq] N]; [congruence | assumption].
  - apply id_matches_false in Hx. simpl. rewrite (IH ND'). split.
    + intros [->|[Hq N]]; auto.
    + intros [[->|Hq] N]; auto.
Qed.

Lemma required_missing_iff (body : FormData) :
  required_missing body = true
  <-> exists f, In f required_fields /\ falsy (FormData_get body f) = true.
Proof.
  unfold required_missing, required_fields. rewrite !orb_true_iff. split.
  - intros [[[[H|H]|H]|H]|H]; eexists; (split; [|exact H]); simpl; auto 10.
  - intros [f [Hin H]]. simpl in Hin.
    destruct Hin as [<-|[<-|[<-|[<-|[<-|[]]]]]]; auto 10.
Qed.

Lemma empty_id_iff (id : option jsstring) :
  or_default id [] = [] <-> id = None \/ id = Some [].
Proof.
  destruct id as [[|c r]|]; simpl; split; auto; try discriminate.
  intros [H|H]; discriminate.
Qed.

(* ================================================================== *)
(** ** Validation, authorization and the failures that change nothing *)

Lemma payload_missing_dec (op : Operation) :
  payload_missing op
  <-> match op with
      | Create body | Update body => required_missing body = true
      | Delete id => or_default id [] = []
      end.
Proof.
  destruct op; simpl; [symmetry; apply required_missing_iff
                      | symmetry; apply required_missing_iff
                      | symmetry; apply empty_id_iff].
Qed.

(** C3.  For Create, Update and Delete the payload is validated before the
    session is looked at: a request that lacks a required field (Create,
    Update) or the identifier (Delete) gets the validation failure whatever
    the session is; with a valid payload a missing session gives
    Unauthorized, and a session whose user is not in the store gives
    UserNotFound.  On each of these paths the world after the request is
    the world before it. *)
Theorem validation_then_authorization (e : Env) (op : Operation) (w : World) :
  (payload_missing op -> run e op w = (validation_failure op, w))
  /\ (~ payload_missing op -> env_session e = None ->
      run e op w = (Unauthorized, w))
  /\ (~ payload_missing op -> forall u, env_session e = Some u ->
      unknown_user u w -> run e op w = (UserNotFound, w)).
Proof.
  rewrite payload_missing_dec. unfold unknown_user.
  destruct op as [body|body|id]; simpl; unfold_handler.
  - destruct (required_missing body); repeat split; try congruence.
    + intros _ ->. reflexivity.
    + intros _ u -> Hu. apply User_findOne_None in Hu. now rewrite Hu.
  - destruct (required_missing body); repeat split; try congruence.
    + intros _ ->. reflexivity.
    + intros _ u -> Hu. apply User_findOne_None in Hu. now rewrite Hu.
  - destruct id as [[|c r]|]; simpl; repeat split; try congruence.
    + intros _ ->. reflexivity.
    + intros _ u -> Hu. apply User_findOne_None in Hu. now rewrite Hu.
Qed.

(** The identifier of an update is a target check: it is looked at after
    the session, and its absence is the failure InvalidTarget. *)
Lemma PUT_without_id (e : Env) (body : FormData) (w : World) :
  required_missing body = false ->
  falsy (FormData_get body (lit "_id")) = true ->
  PUT e body w
  = match env_session e with
    | None => (Unauthorized, w)
    | Some u => match User_findOne u (users w) with
                | None => (UserNotFound, w)
                | Some _ => (InvalidTarget, w)
                end
    end.
Proof.
  unfold_handler. intros -> F.
  destruct (env_session e) as [u|]; [|reflexivity].
  destruct (User_findOne u (users w)); [|reflexivity].
  destruct (FormData_get body (lit "_id")); [|reflexivity].
  now rewrite F.
Qed.

(* ================================================================== *)
(** ** Targets that do not resolve, and deletion *)

(** C9.  An update whose identifier resolves to no post answers NotFound
    and leaves the world as it was.  A delete of an identifier that a post
    of the store carries answers Deleted, after which a fetch by that
    identifier finds nothing and the other posts are all still there; a
    delete of an identifier no post carries answers NotFound and leaves
    the world as it was.  (Requests with a valid payload, a session and a
    known user; identifiers unique in the collection.) *)
Theorem missing_target_and_delete (e : Env) (w : World) (u : jsstring) (usr : User) :
  env_session e = Some u ->
  User_findOne u (users w) = Some usr ->
  (forall body id,
      ~ payload_missing (Update body) ->
      FormData_get body (lit "_id") = Some id -> falsy (Some id) = false ->
      unresolved id w ->
      run e (Update body) w = (NotFound, w))
  /\ (forall id p,
      unique_ids w -> id <> [] -> In p (posts w) -> _id p = id ->
      exists w',
        run e (Delete (Some id)) w = (Deleted, w')
        /\ Post_findOne (EStr id) (posts w') = None
        /\ (forall q, In q (posts w') <-> In q (posts w) /\ _id q <> id))
  /\ (forall id,
      id <> [] -> unresolved (EStr id) w ->
      run e (Delete (Some id)) w = (NotFound, w)).
Proof.
  intros Hs Hu. repeat split.
  - intros body id Hv Hid Hf Hn. rewrite payload_missing_dec in Hv.
    apply Post_findOne_None in Hn.
    simpl; unfold_handler.
    destruct (required_missing body); [congruence|].
    now rewrite Hs, Hu, Hid, Hf, Hn.
  - intros id p ND Hne Hin Hp.
    destruct (Post_findOne (EStr id) (posts w)) as [q|] eqn:Hq.
    + exists (removed (EStr id) q w). simpl; unfold_handler.
      destruct id as [|c r]; [congruence|].
      rewrite Hs. cbv beta iota. rewrite Hu, Hq.
      split; [reflexivity|]. split.
      * simpl. now apply find_remove_same.
      * intros x. simpl. rewrite In_remove_post by assumption.
        split; intros [H1 H2]; (split; [assumption|]); congruence.
    + exfalso. rewrite Post_findOne_None in Hq.
      apply (Hq p Hin). now rewrite Hp.
  - intros id Hne Hn. apply Post_findOne_None in Hn.
    simpl; unfold_handler. destruct id as [|c r]; [congruence|].
    rewrite Hs. cbv beta iota. now rewrite Hu, Hn.
Qed.

(* ================================================================== *)
(** ** What an update overwrites and what it keeps *)

(** C8.  After a successful update the target post holds the supplied
    value in each of title, content, excerpt, author, category,
    subcategory, tags (normalized), the three meta fields, imageCredit and
    status, a field that was not supplied being null; its identifier, slug,
    publish_date and updated_date are the ones it had, and so is its
    featuredImage unless a file was supplied, in which case it is the URL
    of the upload.  Every other post is as it was. *)
Theorem update_overwrites_listed_fields (e : Env) (body : FormData) (w w' : World) :
  PUT e body w = (Updated, w') ->
  exists id old new,
    FormData_get body (lit "_id") = Some id
    /\ Post_findOne id (posts w) = Some old
    /\ Post_findOne id (posts w') = Some new
    /\ (title new = FormData_get body (lit "title")
        /\ content new = FormData_get body (lit "content")
        /\ excerpt new = FormData_get body (lit "excerpt")
        /\ author new = FormData_get body (lit "author")
        /\ category new = FormData_get body (lit "category")
        /\ subcategory new = FormData_get body (lit "subcategory")
        /\ tags new = filteredTags (FormData_getAll body (lit "tags"))
        /\ metaTitle new = FormData_get body (lit "metaTitle")
        /\ metaDescription new = FormData_get body (lit "metaDescription")
        /\ metaKeywords new = FormData_get body (lit "metaKeywords")
        /\ imageCredit new = FormData_get body (lit "imageCredit")
        /\ status new = FormData_get body (lit "status"))
    /\ (_id new = _id old /\ slug new = slug old
        /\ publish_date new = publish_date old
        /\ updated_date new = updated_date old)
    /\ match FormData_get body (lit "featuredImage") with
       | Some (EFile _) => env_upload e = UploadOk (featuredImage new)
       | _ => featuredImage new = featuredImage old
       end
    /\ length (posts w') = length (posts w)
    /\ (forall other, other <> id ->
          Post_findOne other (posts w') = Post_findOne other (posts w)).
Proof.
  intros H. apply PUT_Updated_inv in H.
  destruct H as (_ & _ & _ & id & old & Hid & Hold & Hw).
  pose proof (Post_findOne_Some _ _ _ Hold) as [_ Eid].
  destruct (FormData_get body (lit "featuredImage")) as [[s|f]|] eqn:Hf.
  1, 3: exists id, old, (assign_fields body old); subst w'; simpl;
    (split; [assumption|]); (split; [assumption|]);
    (split; [now apply find_replace_same with (old := old)|]);
    (split; [repeat split|]); (split; [repeat split|]);
    (split; [reflexivity|]); (split; [apply length_replace_post|]);
    intros other Ho; apply find_replace_other; simpl; congruence.
  destruct Hw as (url & Hup & ->).
  exists id, old, (with_featuredImage url (assign_fields body old)). simpl.
  split; [assumption|]. split; [assumption|].
  split; [now apply find_replace_same with (old := old)|].
  split; [repeat split|]. split; [repeat split|].
  split; [assumption|]. split; [apply length_replace_post|].
  intros other Ho. apply find_replace_other. simpl. congruence.
Qed.

(* ================================================================== *)
(** ** Sorted lists *)

Lemma In_firstn {A} (n : nat) (l : list A) (x : A) : In x (firstn n l) -> In x l.
Proof.
  revert l; induction n as [|n IH]; intros [|y l]; simpl; try tauto.
  intros [H|H]; auto.
Qed.

Lemma In_skipn {A} (n : nat) (l : list A) (x : A) : In x (skipn n l) -> In x l.
Proof.
  revert l; induction n as [|n IH]; intros [|y l]; simpl; try tauto.
  intros H; auto.
Qed.

Section Sorted_by_key.

Context {A : Type} (key : A -> Z).

Lemma sorted_app (l1 l2 : list A) :
  StronglySorted (desc_by key) l1 -> StronglySorted (desc_by key) l2 ->
  (forall a b, In a l1 -> In b l2 -> desc_by key a b) ->
  StronglySorted (desc_by key) (l1 ++ l2).
Proof.
  induction l1 as [|x l1 IH]; simpl; intros S1 S2 H; [assumption|].
  inversion S1 as [|? ? S1' F1]; subst. constructor.
  - apply IH; auto.
  - apply Forall_app. split; [assumption|].
    apply Forall_forall. intros b Hb. apply H; auto.
Qed.

Lemma sorted_same_key (c : Z) (l : list A) :
  (forall a, In a l -> key a = c) -> StronglySorted (desc_by key) l.
Proof.
  induction l as [|x l IH]; intros H; constructor.
  - apply IH. intros a Ha. apply H. simpl; auto.
  - apply Forall_forall. intros b Hb. unfold desc_by.
    rewrite (H x), (H b) by (simpl; auto). lia.
Qed.

Lemma sorted_skipn (n : nat) (l : list A) :
  StronglySorted (desc_by key) l -> StronglySorted (desc_by key) (skipn n l).
Proof.
  revert l; induction n as [|n IH]; intros [|x l] S; simpl; auto.
  inversion S; subst. auto.
Qed.

Lemma sorted_firstn (n : nat) (l : list A) :
  StronglySorted (desc_by key) l -> StronglySorted (desc_by key) (firstn n l).
Proof.
  revert l; induction n as [|n IH]; intros [|x l] S; simpl; try constructor.
  - inversion S; subst. auto.
  - inversion S as [|? ? S' F]; subst.
    apply Forall_forall. intros b Hb. apply In_firstn in Hb.
    rewrite Forall_forall in F. auto.
Qed.

End Sorted_by_key.

(** A stage that turns each element into elements of the same key keeps
    the order. *)
Lemma sorted_flat_map {A B} (ka : A -> Z) (kb : B -> Z) (f : A -> list B)
    (l : list A) :
  (forall x y, In y (f x) -> kb y = ka x) ->
  StronglySorted (desc_by ka) l ->
  StronglySorted (desc_by kb) (flat_map f l).
Proof.
  intros Hk. induction l as [|x l IH]; simpl; intros S; [constructor|].
  inversion S as [|? ? S' F]; subst. apply sorted_app.
  - apply sorted_same_key with (c := ka x). intros a Ha. now apply Hk.
  - auto.
  - intros a b Ha Hb. apply in_flat_map in Hb. destruct Hb as (x' & Hx' & Hb).
    unfold desc_by. rewrite (Hk _ _ Ha), (Hk _ _ Hb).
    rewrite Forall_forall in F. exact (F x' Hx').
Qed.

Lemma sorted_map {A B} (ka : A -> Z) (kb : B -> Z) (f : A -> B) (l : list A) :
  (forall x, kb (f x) = ka x) ->
  StronglySorted (desc_by ka) l -> StronglySorted (desc_by kb) (map f l).
Proof.
  intros Hk. induction l as [|x l IH]; simpl; intros S; [constructor|].
  inversion S as [|? ? S' F]; subst. constructor; [auto|].
  apply Forall_forall. intros b Hb. apply in_map_iff in Hb.
  destruct Hb as (a & <- & Ha). unfold desc_by. rewrite !Hk.
  rewrite Forall_forall in F. exact (F a Ha).
Qed.

(* ================================================================== *)
(** ** The stages of the listing *)

Lemma insert_desc_perm (p : Post) (l : list Post) :
  Permutation (insert_desc p l) (p :: l).
Proof.
  induction l as [|x l IH]; simpl; [reflexivity|].
  destruct (publish_date x <=? publish_date p); [reflexivity|].
  rewrite IH. apply perm_swap.
Qed.

Lemma stage_sort_perm (l : list Post) : Permutation (stage_sort l) l.
Proof.
  induction l as [|p l IH]; simpl; [reflexivity|].
  rewrite insert_desc_perm. now constructor.
Qed.

Lemma insert_desc_sorted (p : Post) (l : list Post) :
  StronglySorted (desc_by publish_date) l ->
  StronglySorted (desc_by publish_date) (insert_desc p l).
Proof.
  induction l as [|x l IH]; simpl; intros S.
  - repeat constructor.
  - inversion S as [|? ? S' F]; subst.
    destruct (publish_date x <=? publish_date p) eqn:E.
    + apply Z.leb_le in E. constructor; [assumption|].
      constructor; [exact E|].
      eapply Forall_impl; [|exact F]. unfold desc_by. intros a Ha. lia.
    + apply Z.leb_gt in E. constructor; [auto|].
      apply (Permutation_Forall (Permutation_sym (insert_desc_perm p l))).
      constructor; [unfold desc_by; lia | assumption].
Qed.

Lemma stage_sort_sorted (l : list Post) :
  StronglySorted (desc_by publish_date) (stage_sort l).
Proof.
  induction l as [|p l IH]; simpl; [constructor | now apply insert_desc_sorted].
Qed.

Lemma stage_sort_In (l : list Post) (p : Post) : In p (stage_sort l) <-> In p l.
Proof.
  split; apply Permutation_in;
    [apply stage_sort_perm | apply Permutation_sym, stage_sort_perm].
Qed.

Lemma unwind_In {A B} (mk : option Term -> A -> B) (x : A) (ms : list Term) (y : B) :
  In y (unwind mk x ms) -> exists c, y = mk c x /\ (ms = [] -> c = None)
                                     /\ (forall t, c = Some t -> In t ms).
Proof.
  destruct ms as [|t ms]; simpl.
  - intros [<-|[]]. exists None. repeat split; auto; discriminate.
  - intros [<-|H].
    + exists (Some t). repeat split; try discriminate.
      intros t' E; injection E as <-; auto.
    + apply in_map_iff in H. destruct H as (t' & <- & Ht').
      exists (Some t'). repeat split; try discriminate.
      intros t'' E; injection E as <-; auto.
Qed.

Lemma unwind_not_nil {A B} (mk : option Term -> A -> B) (x : A) (ms : list Term) :
  exists c, In (mk c x) (unwind mk x ms).
Proof.
  destruct ms as [|t ms]; simpl; [exists None | exists (Some t)]; auto.
Qed.

Lemma lookup_nil (ref : option entry) (coll : list Term) :
  (forall c, In c coll -> ref <> Some (EStr (term_id c))) -> lookup ref coll = [].
Proof.
  intros H. destruct ref as [r|]; simpl; [|reflexivity].
  induction coll as [|t coll IH]; simpl; [reflexivity|].
  rewrite (proj2 (id_matches_false r (term_id t))).
  - apply IH. intros c Hc. apply H. simpl; auto.
  - intros E. apply (H t); [simpl; auto | congruence].
Qed.

Lemma lookup_In (ref : option entry) (coll : list Term) (t : Term) :
  In t (lookup ref coll) -> In t coll /\ ref = Some (EStr (term_id t)).
Proof.
  destruct ref as [r|]; simpl; [|tauto].
  rewrite filter_In, id_matches_iff. intros [H ->]. auto.
Qed.

Lemma joined_In (w : World) (d : Doc) :
  In d (joined w) ->
  In (d_post d) (posts w) /\ is_published (d_post d) = true
  /\ (lookup (category (d_post d)) (categories w) = [] -> d_category d = None)
  /\ (lookup (subcategory (d_post d)) (subcategories w) = [] ->
      d_subcategory d = None).
Proof.
  unfold joined, stage_tags, stage_subcategory, stage_category, stage_match.
  intros H. apply in_map_iff in H. destruct H as (t & <- & Ht). simpl.
  apply in_flat_map in Ht. destruct Ht as (t0 & Ht0 & Ht).
  apply unwind_In in Ht. destruct Ht as (s & -> & Hs & _). simpl.
  apply in_flat_map in Ht0. destruct Ht0 as (p & Hp & Ht0).
  apply unwind_In in Ht0. destruct Ht0 as (c & -> & Hc & _). simpl in *.
  apply stage_sort_In, filter_In in Hp. tauto.
Qed.

Lemma joined_sorted (w : World) : StronglySorted (desc_by doc_date) (joined w).
Proof.
  unfold joined, stage_tags, stage_subcategory, stage_category.
  apply sorted_map with (ka := fun d => publish_date (fst (fst d)));
    [reflexivity|].
  apply sorted_flat_map with (ka := fun d => publish_date (fst d)).
  { intros x y Hy. apply unwind_In in Hy. now destruct Hy as (s & -> & _). }
  apply sorted_flat_map with (ka := publish_date).
  { intros x y Hy. apply unwind_In in Hy. now destruct Hy as (c & -> & _). }
  apply stage_sort_sorted.
Qed.

(** No published post is dropped on the way through the joins. *)
Lemma joined_complete (w : World) (p : Post) :
  In p (posts w) -> is_published p = true ->
  exists d, In d (joined w) /\ d_post d = p.
Proof.
  intros Hin Hpub.
  assert (H1 : In p (stage_sort (stage_match (posts w)))).
  { apply stage_sort_In, filter_In. auto. }
  destruct (unwind_not_nil (fun c (p : Post) => (p, c)) p
              (lookup (category p) (categories w))) as [c Hc].
  assert (H2 : In (p, c) (stage_category w (stage_sort (stage_match (posts w))))).
  { apply in_flat_map. exists p. auto. }
  destruct (unwind_not_nil (fun s (d : Post * option Term) => (d, s)) (p, c)
              (lookup (subcategory p) (subcategories w))) as [s Hs].
  assert (H3 : In (p, c, s)
                 (stage_subcategory w
                    (stage_category w (stage_sort (stage_match (posts w)))))).
  { apply in_flat_map. exists (p, c). auto. }
  eexists. split.
  - unfold joined, stage_tags. apply in_map_iff. exists (p, c, s). split; eauto.
  - reflexivity.
Qed.

Lemma lookup_unique (ref : option entry) (coll : list Term) :
  unique_terms coll -> (length (lookup ref coll) <= 1)%nat.
Proof.
  unfold unique_terms. destruct ref as [r|]; simpl; [|lia].
  induction coll as [|t coll IH]; simpl; intros ND; [lia|].
  inversion ND as [|? ? Hnotin ND']; subst.
  destruct (id_matches r (term_id t)) eqn:E; [|auto].
  apply id_matches_iff in E. subst r.
  assert (N : lookup (Some (EStr (term_id t))) coll = []).
  { apply lookup_nil. intros c Hc F. injection F as F.
    apply Hnotin. rewrite F. now apply in_map. }
  unfold lookup in N. rewrite N. simpl; lia.
Qed.

Lemma unwind_single {A B} (mk : option Term -> A -> B) (x : A) (ms : list Term) :
  (length ms <= 1)%nat -> exists c, unwind mk x ms = [mk c x].
Proof.
  destruct ms as [|t [|t' ms]]; simpl; intros H;
    [exists None | exists (Some t) | lia]; reflexivity.
Qed.

Lemma flat_map_project {A B} (f : A -> list B) (g : B -> A) (l : list A) :
  (forall x, exists y, f x = [y] /\ g y = x) -> map g (flat_map f l) = l.
Proof.
  intros H. induction l as [|x l IH]; simpl; [reflexivity|].
  destruct (H x) as (y & -> & <-). simpl. now rewrite IH.
Qed.

(** With unique category and subcategory identifiers the pipeline carries
    exactly one document per published post, in the sorted order. *)
Lemma joined_posts (w : World) :
  unique_terms (categories w) -> unique_terms (subcategories w) ->
  map d_post (joined w) = stage_sort (stage_match (posts w)).
Proof.
  intros Uc Us. unfold joined, stage_tags. rewrite map_map. simpl.
  rewrite <- (map_map fst fst).
  unfold stage_subcategory. rewrite flat_map_project.
  - unfold stage_category. apply flat_map_project. intros p.
    destruct (unwind_single (fun c (p : Post) => (p, c)) p
                (lookup (category p) (categories w))) as [c ->];
      [now apply lookup_unique | eauto].
  - intros d.
    destruct (unwind_single (fun s (d : Post * option Term) => (d, s)) d
                (lookup (subcategory (fst d)) (subcategories w))) as [s ->];
      [now apply lookup_unique | eauto].
Qed.

(** The element at index [i] is on the page that covers [i]. *)
Lemma In_page {A} (l : list A) (i s n : nat) (x : A) :
  nth_error l i = Some x -> (s <= i < s + n)%nat ->
  In x (firstn n (skipn s l)).
Proof.
  intros H Hi. apply nth_error_In with (n := (i - s)%nat).
  rewrite nth_error_firstn.
  destruct (Nat.ltb_spec (i - s) n) as [_|F]; [|lia].
  rewrite nth_error_skipn. now replace (s + (i - s))%nat with i by lia.
Qed.

Lemma is_published_iff (p : Post) :
  is_published p = true <-> status p = Some published.
Proof.
  unfold is_published, published. destruct (status p) as [[s|f]|]; simpl.
  - rewrite str_eqb_eq. split; [intros ->; reflexivity | intros E; now injection E].
  - split; discriminate.
  - split; discriminate.
Qed.

(* ================================================================== *)
(** ** The listing *)

Lemma ceiling_spec (a b : Z) : 1 <= b -> is_ceiling (- (- a / b)) a b.
Proof.
  intros Hb. unfold is_ceiling.
  pose proof (Z.mul_div_le (- a) b ltac:(lia)).
  pose proof (Z.mul_succ_div_gt (- a) b ltac:(lia)).
  nia.
Qed.

Lemma to_double_exact (z : Z) : Z.abs z < 2 ^ 53 -> to_double z = Fin z.
Proof.
  intros H. unfold to_double.
  assert (L : Z.log2 (Z.abs z) - 52 <=? 0 = true).
  { apply Z.leb_le. destruct (Z.eq_dec (Z.abs z) 0) as [->|N]; [simpl; lia|].
    assert (Z.log2 (Z.abs z) < 53) by (apply Z.log2_lt_pow2; lia). lia. }
  rewrite L.
  assert (B : 2 ^ 1024 <=? Z.abs z = false).
  { apply Z.leb_gt. apply Z.lt_trans with (2 ^ 53); [assumption | reflexivity]. }
  rewrite B. f_equal. destruct z; simpl; lia.
Qed.

Lemma GET_ok (dts : Z -> jsstring) (q : SearchParams) (w : World) (page limit : Z) :
  parse_integer (or_default (searchParams_get q (lit "page")) (lit "1")) = Some page ->
  parse_integer (or_default (searchParams_get q (lit "limit")) (lit "6")) = Some limit ->
  1 <= page -> 1 <= limit -> exact_paging page limit ->
  GET dts q w
  = (json (BPosts (page_of page limit (readModel dts w))
             (Some (- (- totalPublished w / limit)))) 200, w).
Proof.
  intros Hp Hl Hp1 Hl1 (Xp & Xl & Xs).
  assert (S0 : 0 <= (page - 1) * limit) by nia.
  unfold GET, try_catch, bind, aggregate, countDocuments_published, gets, ret,
    parseInt.
  rewrite Hp, Hl. unfold num_mul, num_sub.
  rewrite (to_double_exact page), (to_double_exact limit) by lia.
  cbv beta iota.
  rewrite (to_double_exact (page - 1)) by lia. cbv beta iota.
  rewrite (to_double_exact ((page - 1) * limit)) by lia.
  unfold proper_paging.
  assert (E : (0 <=? (page - 1) * limit) && ((page - 1) * limit <? 2 ^ 63)
              && (1 <=? limit) && (limit <? 2 ^ 63) = true).
  { assert (2 ^ 53 < 2 ^ 63) by reflexivity.
    repeat (apply andb_true_iff; split);
      try apply Z.leb_le; try apply Z.ltb_lt; lia. }
  rewrite E. unfold Math_ceil_div.
  destruct (limit =? 0) eqn:Z0; [apply Z.eqb_eq in Z0; lia|].
  reflexivity.
Qed.

Lemma cut_is_a_stretch {A} (c : Cut) (l : list A) :
  exists s n, cut c l = firstn n (skipn s l).
Proof.
  destruct c as [s [n|]]; unfold cut; simpl; [eauto|].
  exists s, (length (skipn s l)). now rewrite firstn_all.
Qed.

Lemma GET_inv (dts : Z -> jsstring) (q : SearchParams) (w : World)
    (ps : list PostView) (tp : number) :
  fst (GET dts q w) = json (BPosts ps tp) 200 ->
  exists s l, ps = firstn l (skipn s (readModel dts w)).
Proof.
  unfold GET, try_catch, bind, aggregate, countDocuments_published, gets, ret.
  destruct (proper_paging _ _) as [c|];
    [|destruct (irregular_paging w _ _) as [e|c];
      [destruct e; simpl; discriminate|]];
    simpl; intros H; injection H as H _;
    destruct (cut_is_a_stretch c (readModel dts w)) as (s & n & E);
    exists s, n; congruence.
Qed.

(** C1, amended.  For a request whose page and limit are integers >= 1
    (an absent page being 1 and an absent limit 6) that, with the skip
    (page - 1) * limit, are below 2^53, so that the route computes with
    them exactly, the listing answers 200 and leaves the world alone; the
    posts it returns are at most [limit]; they are the documents of the
    read model after the first (page - 1) * limit, which, identifiers of
    categories and subcategories being unique, are the published posts in
    sorted order after the first (page - 1) * limit of them; and totalPages
    is the ceiling of the number of all published posts of the store over
    [limit]. *)
Theorem listing_pagination (dts : Z -> jsstring) (q : SearchParams) (w : World)
    (page limit : Z) :
  parse_integer (or_default (searchParams_get q (lit "page")) (lit "1")) = Some page ->
  parse_integer (or_default (searchParams_get q (lit "limit")) (lit "6")) = Some limit ->
  1 <= page -> 1 <= limit -> exact_paging page limit ->
  exists ps tp,
    GET dts q w = (json (BPosts ps (Some tp)) 200, w)
    /\ Z.of_nat (length ps) <= limit
    /\ ps = page_of page limit (readModel dts w)
    /\ (unique_terms (categories w) -> unique_terms (subcategories w) ->
        map v_id ps
        = map _id (page_of page limit (stage_sort (stage_match (posts w)))))
    /\ is_ceiling tp (totalPublished w) limit
    /\ (searchParams_get q (lit "page") = None -> page = 1)
    /\ (searchParams_get q (lit "limit") = None -> limit = 6).
Proof.
  intros Hp Hl Hp1 Hl1 Hx.
  exists (page_of page limit (readModel dts w)), (- (- totalPublished w / limit)).
  split; [now apply GET_ok|]. split.
  { unfold page_of. pose proof (firstn_le_length (Z.to_nat limit)
      (skipn (Z.to_nat ((page - 1) * limit)) (readModel dts w))). lia. }
  split; [reflexivity|]. split.
  { intros Uc Us. unfold page_of, readModel.
    rewrite <- (joined_posts w Uc Us).
    rewrite !skipn_map, !firstn_map, !map_map. reflexivity. }
  split; [now apply ceiling_spec|]. split.
  - intros E. rewrite E in Hp. vm_compute in Hp. congruence.
  - intros E. rewrite E in Hl. vm_compute in Hl. congruence.
Qed.

(** C2.  Every post the listing returns has the status published, and the
    returned sequence is the projection of documents of published posts of
    the store that are in descending order of publish_date. *)
Theorem listing_published_newest_first (dts : Z -> jsstring) (q : SearchParams)
    (w : World) (ps : list PostView) (tp : number) :
  fst (GET dts q w) = json (BPosts ps tp) 200 ->
  Forall (fun v => v_status v = Some published) ps
  /\ exists docs,
       ps = map (project dts) docs
       /\ Forall (fun d => In (d_post d) (posts w)
                           /\ status (d_post d) = Some published) docs
       /\ StronglySorted (desc_by doc_date) docs.
Proof.
  intros H. apply GET_inv in H. destruct H as (s & l & ->).
  unfold readModel. rewrite skipn_map, firstn_map.
  assert (F : Forall (fun d => In (d_post d) (posts w)
                               /\ status (d_post d) = Some published)
                (firstn l (skipn s (joined w)))).
  { apply Forall_forall. intros d Hd. apply In_firstn, In_skipn in Hd.
    apply joined_In in Hd. rewrite <- is_published_iff. tauto. }
  split.
  - apply Forall_forall. intros v Hv. apply in_map_iff in Hv.
    destruct Hv as (d & <- & Hd). rewrite Forall_forall in F.
    simpl. exact (proj2 (F d Hd)).
  - eexists. split; [reflexivity|]. split; [exact F|].
    apply sorted_firstn, sorted_skipn, joined_sorted.
Qed.

(** C4.  A published post whose category reference resolves to no
    Category is not dropped: the pipeline has a document of it, the view
    of that document shows the post (its identifier, title, slug, content
    and the other projected fields are the post's), and a listing whose
    page covers the document's position, page, limit and skip being
    integers the route computes with exactly, answers 200 and returns that
    view.  Every view of the post then carries category null and
    categoryName null.  The same holds for a subcategory reference that
    resolves to no Subcategory, with subcategory and subcategoryName. *)
Theorem unresolved_taxonomy_is_null (dts : Z -> jsstring) (w : World) (p : Post) :
  In p (posts w) -> status p = Some published ->
  exists i d,
    nth_error (joined w) i = Some d /\ d_post d = p
    /\ view_of dts (project dts d) p
    /\ (forall q page limit,
          parse_integer (or_default (searchParams_get q (lit "page")) (lit "1"))
            = Some page ->
          parse_integer (or_default (searchParams_get q (lit "limit")) (lit "6"))
            = Some limit ->
          1 <= page -> 1 <= limit -> exact_paging page limit ->
          (page - 1) * limit <= Z.of_nat i < page * limit ->
          exists ps tp, GET dts q w = (json (BPosts ps tp) 200, w)
                        /\ In (project dts d) ps)
    /\ ((forall c, In c (categories w) -> category p <> Some (EStr (term_id c))) ->
        forall d', In d' (joined w) -> d_post d' = p ->
          view_of dts (project dts d') p
          /\ v_category (project dts d') = None
          /\ v_categoryName (project dts d') = None)
    /\ ((forall c, In c (subcategories w) ->
           subcategory p <> Some (EStr (term_id c))) ->
        forall d', In d' (joined w) -> d_post d' = p ->
          view_of dts (project dts d') p
          /\ v_subcategory (project dts d') = None
          /\ v_subcategoryName (project dts d') = None).
Proof.
  intros Hin Hst. apply is_published_iff in Hst.
  assert (V : forall d', d_post d' = p -> view_of dts (project dts d') p).
  { intros d' <-. unfold view_of. simpl. repeat split. }
  destruct (joined_complete w p Hin Hst) as (d & Hd & Hdp).
  apply In_nth_error in Hd. destruct Hd as [i Hi].
  exists i, d. split; [assumption|]. split; [assumption|].
  split; [now apply V|]. split; [|split].
  - intros q page limit Hp Hl Hp1 Hl1 Hx Hrange.
    eexists _, _. split; [apply (GET_ok dts q w page limit); assumption|].
    unfold page_of, readModel. rewrite skipn_map, firstn_map.
    apply in_map. apply In_page with (i := i); [assumption|]. nia.
  - intros Hc d' Hd' E. apply joined_In in Hd'.
    destruct Hd' as (_ & _ & Hcat & _). rewrite E in Hcat.
    split; [now apply V|].
    simpl. rewrite (Hcat (lookup_nil _ _ Hc)). auto.
  - intros Hc d' Hd' E. apply joined_In in Hd'.
    destruct Hd' as (_ & _ & _ & Hsub). rewrite E in Hsub.
    split; [now apply V|].
    simpl. rewrite (Hsub (lookup_nil _ _ Hc)). auto.
Qed.

(* ================================================================== *)
(** ** The number in the name of an uploaded object *)

Lemma round_half_even_bounds (n s t : Z) :
  0 <= n -> 0 < s -> 0 <= t -> n < t * 2 ^ s ->
  0 <= round_half_even n s <= t * 2 ^ s.
Proof.
  intros Hn Hs Ht Hlt. unfold round_half_even.
  rewrite !Z.shiftl_mul_pow2, Z.shiftr_div_pow2 by lia.
  assert (P : 0 < 2 ^ s) by (apply Z.pow_pos_nonneg; lia).
  assert (Q0 : 0 <= n / 2 ^ s) by (apply Z.div_pos; lia).
  assert (Q1 : n / 2 ^ s < t).
  { apply Z.div_lt_upper_bound; lia. }
  destruct ((_ <? _) || _); nia.
Qed.

Lemma times_1e11_bounds (x : Z) :
  0 <= x < TWO53 -> 0 <= times_1e11 x <= 100000000000 * TWO53.
Proof.
  unfold times_1e11, TWO53. intros Hx.
  set (n := x * 100000000000).
  assert (Hn : 0 <= n < 100000000000 * 2 ^ 53) by (unfold n; lia).
  destruct (Z.log2 n - 52 <=? 0) eqn:E; [lia|].
  apply Z.leb_gt in E.
  assert (L : Z.log2 n < 90).
  { destruct (Z.eq_dec n 0) as [->|N0]; [simpl; lia|].
    apply Z.log2_lt_pow2; lia. }
  set (s := Z.log2 n - 52) in *.
  assert (T : 100000000000 * 2 ^ 53 = (48828125 * 2 ^ (64 - s)) * 2 ^ s).
  { rewrite <- Z.mul_assoc, <- Z.pow_add_r by lia.
    replace (64 - s + s) with 64 by lia. reflexivity. }
  rewrite T. apply round_half_even_bounds; lia.
Qed.

Lemma toFixed0_int_bounds (e : Env) :
  0 <= toFixed0_int (times_1e11 (Math_random e)) <= 10 ^ 11.
Proof.
  assert (R : 0 <= Math_random e < TWO53).
  { unfold Math_random. apply Z.mod_pos_bound. reflexivity. }
  pose proof (times_1e11_bounds _ R) as B.
  unfold toFixed0_int, TWO53 in *. split.
  - apply Z.div_pos; lia.
  - replace (10 ^ 11) with ((100000000000 * 2 ^ 53 + 2 ^ 52) / 2 ^ 53)
      by reflexivity.
    apply Z.div_le_mono; lia.
Qed.

Lemma digits_from_length_ge (fuel : nat) (n : Z) (acc : jsstring) :
  (1 + length acc <= length (digits_from fuel n acc))%nat.
Proof.
  revert n acc; induction fuel as [|fuel IH]; intros n acc; simpl; [lia|].
  destruct (n <? 10); simpl; [lia|].
  specialize (IH (n / 10) (digit (n mod 10) :: acc)). simpl in IH. lia.
Qed.

Lemma digits_from_length_le (fuel : nat) (n : Z) (acc : jsstring) (k : nat) :
  0 <= n < 10 ^ Z.of_nat (S k) ->
  (length (digits_from fuel n acc) <= S k + length acc)%nat.
Proof.
  revert n acc k; induction fuel as [|fuel IH]; intros n acc k Hn; simpl; [lia|].
  destruct (n <? 10) eqn:E; simpl; [lia|].
  apply Z.ltb_ge in E.
  destruct k as [|k]; [simpl in Hn; lia|].
  assert (H10 : 0 <= n / 10 < 10 ^ Z.of_nat (S k)).
  { split; [apply Z.div_pos; lia|].
    apply Z.div_lt_upper_bound; [lia|].
    replace (Z.of_nat (S (S k))) with (1 + Z.of_nat (S k)) in Hn by lia.
    rewrite Z.pow_add_r in Hn by lia. lia. }
  specialize (IH (n / 10) (digit (n mod 10) :: acc) k H10). simpl in IH. lia.
Qed.

Lemma decimal_length (n : Z) :
  0 <= n <= 10 ^ 11 -> (1 <= length (decimal n) <= 12)%nat.
Proof.
  intros Hn. unfold decimal. split.
  - pose proof (digits_from_length_ge (Z.to_nat (Z.log2 n)) n []). simpl in *. lia.
  - pose proof (digits_from_length_le (Z.to_nat (Z.log2 n)) n [] 11) as H.
    simpl length in H. rewrite Nat.add_0_r in H. apply H.
    change (10 ^ Z.of_nat 12) with (10 * 10 ^ 11). lia.
Qed.

Lemma last_of_app {A} (l1 l2 : list A) (d : A) :
  l2 <> [] -> last (l1 ++ l2) d = last l2 d.
Proof.
  intros H. induction l1 as [|x l1 IH]; [reflexivity|].
  simpl. rewrite IH. destruct (l1 ++ l2) eqn:E; [|reflexivity].
  apply app_eq_nil in E. tauto.
Qed.

(** The final segment of a media type. *)
Lemma pop_split_app (sep : cu) (a b : jsstring) :
  pop (split sep (a ++ sep :: b)) = pop (split sep b).
Proof.
  unfold pop. rewrite split_app. apply last_of_app. apply split_not_nil.
Qed.

Lemma pop_split_without_sep (sep : cu) (s : jsstring) :
  contains sep s = false -> pop (split sep s) = s.
Proof. intros H. now rewrite split_without_sep. Qed.

(* ================================================================== *)
(** ** Tags *)

Lemma POST_Created_tags (e : Env) (body : FormData) (w w' : World) :
  POST e body w = (Created, w') ->
  exists p, posts w' = posts w ++ [p]
            /\ tags p = filteredTags (FormData_getAll body (lit "tags")).
Proof.
  intros H. apply POST_Created_inv in H. destruct H as (_ & _ & _ & H).
  destruct (FormData_get body (lit "featuredImage")) as [[s|f]|];
    [subst w' | destruct H as (url & _ & ->) | subst w'];
    eexists; split; reflexivity.
Qed.

Lemma PUT_Updated_tags (e : Env) (body : FormData) (w w' : World) :
  PUT e body w = (Updated, w') ->
  exists id p, FormData_get body (lit "_id") = Some id
               /\ Post_findOne id (posts w') = Some p
               /\ tags p = filteredTags (FormData_getAll body (lit "tags")).
Proof.
  intros H. apply PUT_Updated_inv in H.
  destruct H as (_ & _ & _ & id & old & Hid & Hold & H).
  exists id.
  destruct (FormData_get body (lit "featuredImage")) as [[s|f]|];
    [subst w' | destruct H as (url & _ & ->) | subst w'];
    eexists; (split; [assumption|]);
    (split; [apply find_replace_same with (old := old);
             [assumption | reflexivity] | reflexivity]).
Qed.

(** C5, amended.  Create and Update persist the list obtained from the
    supplied tag values by joining them with the comma, splitting the
    result on the comma and trimming each element.  For a non-empty list
    of values none of which contains a comma this is the list of the
    trimmed values; in general each value contributes its own trimmed
    segments, at least two when it contains a comma.  For the empty list of
    values it is the list of the one empty string. *)
Theorem tags_round_trip (e : Env) (body : FormData) (w w' : World) :
  let vs := FormData_getAll body (lit "tags") in
  let persisted := map trim (split COMMA (join COMMA (map toString vs))) in
  (POST e body w = (Created, w') ->
     exists p, posts w' = posts w ++ [p] /\ tags p = persisted)
  /\ (PUT e body w = (Updated, w') ->
     exists id p, FormData_get body (lit "_id") = Some id
                  /\ Post_findOne id (posts w') = Some p /\ tags p = persisted)
  /\ (vs <> [] ->
      (forall v, In v vs -> contains COMMA (toString v) = false) ->
      persisted = map (fun v => trim (toString v)) vs)
  /\ (vs <> [] ->
      persisted = flat_map (fun v => map trim (split COMMA (toString v))) vs)
  /\ (forall v, In v vs -> contains COMMA (toString v) = true ->
      (2 <= length (map trim (split COMMA (toString v))))%nat)
  /\ (vs = [] -> persisted = [[]]).
Proof.
  intros vs persisted. repeat split.
  - apply POST_Created_tags.
  - apply PUT_Updated_tags.
  - apply filteredTags_without_sep.
  - apply filteredTags_flat_map.
  - intros v _ Hv. rewrite length_map. now apply split_with_sep.
  - intros E. unfold persisted. now rewrite E.
Qed.


(* ================================================================== *)
(** ** The image of a created post *)

(** C6.  In a create with a file attached the upload comes before the
    insert: a create that succeeds has appended to the trace the upload and
    then the insert; when the upload fails (the upload task or the request
    for the download URL rejects) the posts of the store are the ones from
    before, the answer is not Created and, for a valid payload of a known
    user, it is the general failure 500. *)
Theorem upload_before_persist (e : Env) (body : FormData) (w : World) (f : File) :
  FormData_get body (lit "featuredImage") = Some (EFile f) ->
  (forall w', POST e body w = (Created, w') ->
     trace w' = trace w ++ [EvUpload (create_fileName e f); EvInsert (env_objectId e)])
  /\ ((forall url, env_upload e <> UploadOk url) ->
      posts (snd (POST e body w)) = posts w
      /\ fst (POST e body w) <> Created
      /\ (forall u usr,
            required_missing body = false -> env_session e = Some u ->
            User_findOne u (users w) = Some usr ->
            code (fst (POST e body w)) = 500)).
Proof.
  intros Hf. split.
  - intros w' H. apply POST_Created_inv in H. destruct H as (_ & _ & _ & H).
    rewrite Hf in H. destruct H as (url & _ & ->). simpl.
    now rewrite <- app_assoc.
  - intros Hfail.
    assert (P : posts (snd (POST e body w)) = posts w
                /\ (required_missing body = false ->
                    forall u usr, env_session e = Some u ->
                      User_findOne u (users w) = Some usr ->
                      code (fst (POST e body w)) = 500)).
    { unfold_handler. rewrite Hf.
      destruct (required_missing body);
        [split; [reflexivity | intros; congruence]|].
      destruct (env_session e) as [u|];
        [|split; [reflexivity | intros; congruence]].
      destruct (User_findOne u (users w)) as [usr|] eqn:Hu;
        [|split; [reflexivity | intros; congruence]].
      destruct (env_upload e) as [err|err|url];
        [| | exfalso; exact (Hfail url eq_refl)]; split; reflexivity. }
    destruct P as [P1 P2]. split; [exact P1|]. split.
    + intros E. destruct (POST e body w) as [r w'] eqn:R. simpl in *. subst r.
      apply POST_Created_inv in R. destruct R as (_ & _ & _ & R).
      rewrite Hf in R. destruct R as (url & Hu & _). exact (Hfail url Hu).
    + intros u usr Hv Hs Hu. exact (P2 Hv u usr Hs Hu).
Qed.

(** C7, amended.  A created post has the empty featuredImage when no file is
    supplied.  When a file is supplied it is stored under
    the-educative/blog/post-<n>.<ext>, where <ext> is the final segment of
    the file's media type and <n> is the unpadded decimal numeral of an
    integer between 0 and 10^11, so of one to twelve digits; the post's
    featuredImage is the URL the upload returned. *)
Theorem create_image_key (e : Env) (body : FormData) (w w' : World) :
  POST e body w = (Created, w') ->
  exists p,
    posts w' = posts w ++ [p]
    /\ match FormData_get body (lit "featuredImage") with
       | Some (EFile f) =>
           exists n ext,
             0 <= n <= 10 ^ 11
             /\ (1 <= length (decimal n) <= 12)%nat
             /\ (contains SLASH (file_type f) = false -> ext = file_type f)
             /\ (forall a b, file_type f = a ++ SLASH :: b ->
                   contains SLASH b = false -> ext = b)
             /\ bucket w'
                = bucket_put (lit "the-educative/blog/post-" ++ decimal n ++ DOT :: ext)
                    f (bucket w)
             /\ env_upload e = UploadOk (featuredImage p)
       | _ => featuredImage p = [] /\ bucket w' = bucket w
       end.
Proof.
  intros H. apply POST_Created_inv in H. destruct H as (_ & _ & _ & H).
  destruct (FormData_get body (lit "featuredImage")) as [[s|f]|].
  - subst w'. eexists. split; [reflexivity|]. split; reflexivity.
  - destruct H as (url & Hu & ->). eexists. split; [reflexivity|].
    exists (toFixed0_int (times_1e11 (Math_random e))), (extension f).
    pose proof (toFixed0_int_bounds e) as B.
    split; [exact B|]. split; [now apply decimal_length|]. split.
    { apply pop_split_without_sep. } split.
    { intros a b E Hb. unfold extension. rewrite E, pop_split_app.
      now apply pop_split_without_sep. }
    split; [reflexivity | exact Hu].
  - subst w'. eexists. split; [reflexivity|]. split; reflexivity.
Qed.

(* ================================================================== *)
(** ** Numerals are read back *)

Lemma is_digit_digit (d : Z) : 0 <= d < 10 -> is_digit (digit d) = true.
Proof.
  intros H. unfold is_digit, digit. apply andb_true_iff.
  split; apply N.leb_le; lia.
Qed.

Lemma digit_value (d : Z) : 0 <= d < 10 -> Z.of_N (digit d) - 48 = d.
Proof. intros H. unfold digit. lia. Qed.

Lemma digits_from_spec (fuel : nat) (n : Z) (acc : jsstring) :
  0 <= n < 10 ^ Z.of_nat (S fuel) ->
  exists ds,
    digits_from fuel n acc = ds ++ acc
    /\ ds <> [] /\ Forall (fun c => is_digit c = true) ds
    /\ forall a, numeral_value ds a = a * 10 ^ Z.of_nat (length ds) + n.
Proof.
  revert n acc; induction fuel as [|fuel IH]; intros n acc Hn.
  - change (10 ^ Z.of_nat 1) with 10 in Hn. simpl.
    rewrite Z.mod_small by lia. exists [digit n].
    split; [reflexivity|]. split; [discriminate|].
    split; [repeat constructor; now apply is_digit_digit|].
    intros a. unfold numeral_value. cbn [fold_left length].
      rewrite digit_value by lia. change (Z.of_nat 1) with 1. lia.
  - simpl digits_from. destruct (n <? 10) eqn:E.
    + apply Z.ltb_lt in E. exists [digit n].
      split; [reflexivity|]. split; [discriminate|].
      split; [repeat constructor; apply is_digit_digit; lia|].
      intros a. unfold numeral_value. cbn [fold_left length].
      rewrite digit_value by lia. change (Z.of_nat 1) with 1. lia.
    + apply Z.ltb_ge in E.
      assert (H10 : 0 <= n / 10 < 10 ^ Z.of_nat (S fuel)).
      { split; [apply Z.div_pos; lia|].
        apply Z.div_lt_upper_bound; [lia|].
        replace (Z.of_nat (S (S fuel))) with (1 + Z.of_nat (S fuel)) in Hn by lia.
        rewrite Z.pow_add_r in Hn by lia. lia. }
      destruct (IH (n / 10) (digit (n mod 10) :: acc) H10)
        as (ds & Hds & _ & Hdig & Hval).
      pose proof (Z.mod_pos_bound n 10 ltac:(lia)) as Hm.
      exists (ds ++ [digit (n mod 10)]).
      split; [rewrite Hds, <- app_assoc; reflexivity|].
      split; [destruct ds; discriminate|].
      split; [apply Forall_app; split;
              [assumption | repeat constructor; now apply is_digit_digit]|].
      intros a. unfold numeral_value in *. rewrite fold_left_app, Hval.
      cbn [fold_left]. rewrite digit_value by lia. rewrite length_app.
      cbn [length].
      replace (Z.of_nat (length ds + 1)) with (Z.of_nat (length ds) + 1) by lia.
      rewrite Z.pow_add_r by lia.
      pose proof (Z.div_mod n 10 ltac:(lia)). lia.
Qed.

Lemma read_digits_all (ds : jsstring) (acc : option Z) :
  ds <> [] -> Forall (fun c => is_digit c = true) ds ->
  read_digits ds acc
  = Some (numeral_value ds (match acc with Some a => a | None => 0 end)).
Proof.
  revert acc; induction ds as [|c ds IH]; intros acc Hne Hd; [congruence|].
  inversion Hd as [|? ? Hc Hds]; subst. simpl. rewrite Hc.
  destruct ds as [|c' ds']; [reflexivity|].
  rewrite IH by (auto; discriminate). reflexivity.
Qed.

Lemma digit_not_space (c : cu) : is_digit c = true -> is_space c = false.
Proof.
  unfold is_digit, is_space. rewrite andb_true_iff, !N.leb_le. intros [H1 H2].
  apply orb_false_iff. split.
  - simpl. repeat (apply orb_false_iff; split); try reflexivity;
      apply N.eqb_neq; lia.
  - apply andb_false_iff. left. apply N.leb_gt. lia.
Qed.

(** The numeral of a non-negative integer is read back. *)
Lemma parse_integer_decimal (n : Z) : 0 <= n -> parse_integer (decimal n) = Some n.
Proof.
  intros Hn. unfold decimal.
  assert (B : 0 <= n < 10 ^ Z.of_nat (S (Z.to_nat (Z.log2 n)))).
  { split; [assumption|].
    destruct (Z.eq_dec n 0) as [->|N0]; [reflexivity|].
    pose proof (Z.log2_nonneg n). rewrite Nat2Z.inj_succ, Z2Nat.id by assumption.
    apply Z.lt_le_trans with (2 ^ Z.succ (Z.log2 n)).
    - apply Z.log2_spec. lia.
    - apply Z.pow_le_mono_l. lia. }
  destruct (digits_from_spec _ n [] B) as (ds & -> & Hne & Hd & Hv).
  rewrite app_nil_r. unfold parse_integer.
  destruct ds as [|c ds]; [congruence|].
  inversion Hd as [|? ? Hc Hds]; subst.
  simpl trimStart. rewrite (digit_not_space c Hc).
  assert (M : cu_eqb c 45%N = false /\ cu_eqb c 43%N = false).
  { unfold is_digit in Hc. rewrite andb_true_iff, !N.leb_le in Hc.
    unfold cu_eqb. split; apply N.eqb_neq; lia. }
  destruct M as [-> ->].
  rewrite read_digits_all by assumption. rewrite Hv. reflexivity.
Qed.

(* ================================================================== *)
(** ** The identifiers stay unique *)

Lemma ids_replace_post (p : Post) (ps : list Post) :
  map _id (replace_post p ps) = map _id ps.
Proof.
  induction ps as [|x r IH]; simpl; [reflexivity|].
  destruct (str_eqb (_id x) (_id p)) eqn:E; simpl; [|now rewrite IH].
  apply str_eqb_eq in E. now rewrite E.
Qed.

Lemma ids_remove_post (id : entry) (ps : list Post) :
  NoDup (map _id ps) -> NoDup (map _id (remove_post id ps)).
Proof.
  induction ps as [|x r IH]; simpl; intros ND; [assumption|].
  inversion ND as [|? ? Hnotin ND']; subst.
  destruct (id_matches id (_id x)); [assumption|].
  simpl. constructor; [|auto].
  intros H. apply Hnotin. apply in_map_iff in H. destruct H as (q & <- & Hq).
  apply in_map. clear - Hq. induction r as [|y r IH]; simpl in *; [tauto|].
  destruct (id_matches id (_id y)); simpl in *; tauto.
Qed.

(** What a write can have done to the posts of the store. *)
Lemma run_posts (e : Env) (op : Operation) (w : World) :
  posts (snd (run e op w)) = posts w
  \/ (exists p, _id p = env_objectId e /\ posts (snd (run e op w)) = posts w ++ [p])
  \/ (exists p, posts (snd (run e op w)) = replace_post p (posts w))
  \/ (exists id, posts (snd (run e op w)) = remove_post id (posts w)).
Proof.
  destruct op as [body|body|id]; simpl; unfold_handler.
  - destruct (required_missing body); [auto|].
    destruct (env_session e) as [u|]; [|auto].
    destruct (User_findOne u (users w)); [|auto].
    destruct (FormData_get body (lit "featuredImage")) as [[s|f]|];
      try destruct (env_upload e); destruct (env_save e); simpl; auto;
      right; left; eexists; (split; [|reflexivity]); reflexivity.
  - destruct (required_missing body); [auto|].
    destruct (env_session e) as [u|]; [|auto].
    destruct (User_findOne u (users w)); [|auto].
    destruct (FormData_get body (lit "_id")) as [i|]; [|auto].
    destruct (falsy (Some i)); [auto|].
    destruct (Post_findOne i (posts w)); [|auto].
    destruct (FormData_get body (lit "featuredImage")) as [[s|f]|];
      try destruct (env_upload e); destruct (env_save e); simpl; auto;
      right; right; left; eexists; reflexivity.
  - destruct id as [[|c r]|]; [auto| |auto].
    destruct (env_session e) as [u|]; [|auto].
    destruct (User_findOne u (users w)); [|auto].
    destruct (Post_findOne (EStr (c :: r)) (posts w)); simpl; [|auto].
    right; right; right. eexists; reflexivity.
Qed.

(** Uniqueness of the identifiers is an invariant of the three writes, a
    created post being given an identifier that is not in use. *)
Lemma run_keeps_unique_ids (e : Env) (op : Operation) (w : World) :
  unique_ids w ->
  (forall p, In p (posts w) -> _id p <> env_objectId e) ->
  unique_ids (snd (run e op w)).
Proof.
  unfold unique_ids. intros ND Hfresh.
  destruct (run_posts e op w) as [H|[(p & Hp & H)|[(p & H)|(id & H)]]]; rewrite H.
  - assumption.
  - rewrite map_app. simpl. apply NoDup_app; [assumption | repeat constructor; auto |].
    intros a Ha [<-|[]]. apply in_map_iff in Ha. destruct Ha as (q & Hq & Hin).
    apply (Hfresh q Hin). congruence.
  - now rewrite ids_replace_post.
  - now apply ids_remove_post.
Qed.

(* ================================================================== *)
(** ** The properties at concrete requests *)

(** The example of the spec: page 2 with limit 6 of thirteen published
    posts is the six posts after the six newest, and there are 3 pages. *)
Example GET_thirteen :
  exists ps,
    fst (GET dmy [(lit "page", lit "2"); (lit "limit", lit "6")] Sample.thirteen)
    = json (BPosts ps (Some 3)) 200
    /\ map v_id ps = map lit ["p7"; "p6"; "p5"; "p4"; "p3"; "p2"]%string.
Proof. eexists. split; vm_compute; reflexivity. Qed.

Lemma listing_pagination_witness :
  parse_integer
    (or_default (searchParams_get [(lit "limit", lit "2"); (lit "page", lit "2")]
                   (lit "page")) (lit "1")) = Some 2
  /\ exact_paging 2 2
  /\ exists ps tp,
       GET dmy [(lit "limit", lit "2"); (lit "page", lit "2")] Sample.world
       = (json (BPosts ps (Some tp)) 200, Sample.world)
       /\ Z.of_nat (length ps) <= 2
       /\ is_ceiling tp (totalPublished Sample.world) 2.
Proof.
  assert (X : exact_paging 2 2) by (unfold exact_paging; lia).
  split; [vm_compute; reflexivity|]. split; [exact X|].
  destruct (listing_pagination dmy [(lit "limit", lit "2"); (lit "page", lit "2")]
              Sample.world 2 2)
    as (ps & tp & H1 & H2 & _ & _ & H5 & _);
    [vm_compute; reflexivity | vm_compute; reflexivity | lia | lia | exact X |].
  exists ps, tp. auto.
Defined.

(** C1 as stated fails for a limit no double holds: the route reads
    ?limit=1 followed by 309 zeros as Infinity and computes the skip
    0 * Infinity = NaN.  On a database that rejects such a stage the
    answer is 500; on one that pages through everything the answer has
    totalPages 0, which is not the ceiling of 3 over that limit. *)
Lemma listing_pagination_counterexample :
  parse_integer
    (or_default (searchParams_get (query 1 (10 ^ 309)) (lit "page")) (lit "1"))
  = Some 1
  /\ parse_integer
       (or_default (searchParams_get (query 1 (10 ^ 309)) (lit "limit")) (lit "6"))
     = Some (10 ^ 309)
  /\ 1 <= 10 ^ 309
  /\ parseInt (decimal (10 ^ 309)) = Inf false
  /\ num_mul (num_sub (Fin 1) (Fin 1)) (Inf false) = NaN
  /\ code (fst (GET dmy (query 1 (10 ^ 309)) Sample.world)) = 500
  /\ fst (GET dmy (query 1 (10 ^ 309)) Cases.lenient)
     = json (BPosts (readModel dmy Cases.lenient) (Some 0)) 200
  /\ totalPublished Cases.lenient = 3
  /\ ~ is_ceiling 0 3 (10 ^ 309).
Proof.
  repeat split; try (vm_compute; reflexivity).
  - vm_compute. discriminate.
  - intros [_ H]. lia.
Qed.

Lemma listing_published_newest_first_witness :
  fst (GET dmy [(lit "limit", lit "2")] Sample.world)
  = json (BPosts (page_of 1 2 (readModel dmy Sample.world)) (Some 2)) 200
  /\ Forall (fun v => v_status v = Some published)
       (page_of 1 2 (readModel dmy Sample.world)).
Proof.
  assert (H : fst (GET dmy [(lit "limit", lit "2")] Sample.world)
              = json (BPosts (page_of 1 2 (readModel dmy Sample.world)) (Some 2)) 200)
    by (vm_compute; reflexivity).
  split; [exact H|].
  exact (proj1 (listing_published_newest_first dmy _ Sample.world _ _ H)).
Defined.

Lemma validation_then_authorization_witness :
  run (Sample.with_session None Sample.env) (Create []) Sample.world
  = (ValidationFailed, Sample.world)
  /\ run (Sample.with_session None Sample.env) (Delete None) Sample.world
     = (ValidationFailed_id, Sample.world)
  /\ run (Sample.with_session None Sample.env) (Update Sample.update_form) Sample.world
     = (Unauthorized, Sample.world)
  /\ run (Sample.with_session (Some (lit "ghost")) Sample.env)
       (Delete (Some (lit "p1"))) Sample.world
     = (UserNotFound, Sample.world).
Proof.
  split; [|split; [|split]].
  - apply (proj1 (validation_then_authorization _ (Create []) Sample.world)).
    exists (lit "title"). split; [simpl; auto | reflexivity].
  - apply (proj1 (validation_then_authorization _ (Delete None) Sample.world)).
    left. reflexivity.
  - apply (proj1 (proj2 (validation_then_authorization
                           (Sample.with_session None Sample.env)
                           (Update Sample.update_form) Sample.world))).
    + rewrite payload_missing_dec. vm_compute. discriminate.
    + reflexivity.
  - apply (proj2 (proj2 (validation_then_authorization
                           (Sample.with_session (Some (lit "ghost")) Sample.env)
                           (Delete (Some (lit "p1"))) Sample.world))
             ltac:(rewrite payload_missing_dec; vm_compute; discriminate)
             (lit "ghost") eq_refl).
    refine (proj1 (User_findOne_None (lit "ghost") (users Sample.world)) _).
    vm_compute. reflexivity.
Defined.

Lemma unresolved_taxonomy_is_null_witness :
  In (Sample.mkPost (lit "p3") "published" "gone" "s1" [lit "t2"; lit "t1"] 3000)
    (posts Sample.world)
  /\ exists d,
       In d (joined Sample.world)
       /\ v_id (project dmy d) = lit "p3"
       /\ v_title (project dmy d) = Some (EStr (lit "p3"))
       /\ v_category (project dmy d) = None
       /\ v_categoryName (project dmy d) = None.
Proof.
  assert (Hin : In (Sample.mkPost (lit "p3") "published" "gone" "s1" [lit "t2"; lit "t1"] 3000)
                  (posts Sample.world)) by (simpl; auto).
  split; [exact Hin|].
  destruct (unresolved_taxonomy_is_null dmy Sample.world _ Hin eq_refl)
    as (i & d & Hnth & Hd & Hv & _ & Hc & _).
  exists d. split; [eapply nth_error_In; exact Hnth|].
  destruct Hv as (Vid & Vtitle & _).
  split; [exact Vid|]. split; [exact Vtitle|].
  apply Hc; [|eapply nth_error_In; exact Hnth | exact Hd].
  intros c [<-|[]] E. vm_compute in E. discriminate E.
Defined.

Lemma tags_round_trip_witness :
  exists w' p,
    PUT Sample.env Sample.update_form Sample.world = (Updated, w')
    /\ Post_findOne (EStr (lit "p1")) (posts w') = Some p
    /\ tags p = [lit "a"; lit "b"].
Proof.
  assert (H : PUT Sample.env Sample.update_form Sample.world
              = (Updated, snd (PUT Sample.env Sample.update_form Sample.world)))
    by (vm_compute; reflexivity).
  destruct (proj1 (proj2 (tags_round_trip Sample.env Sample.update_form
                            Sample.world _)) H) as (id & p & Hid & Hp & Ht).
  exists (snd (PUT Sample.env Sample.update_form Sample.world)), p.
  split; [exact H|]. split.
  - vm_compute in Hid. injection Hid as <-. exact Hp.
  - rewrite Ht. vm_compute. reflexivity.
Defined.

(** C5 as stated fails on the empty list of tag values: no value contains
    a comma, the element-wise trimmed list is empty, and the post that is
    persisted has one tag, the empty string. *)
Lemma tags_round_trip_counterexample :
  (forall v, In v (FormData_getAll Sample.fields (lit "tags")) ->
     contains COMMA (toString v) = false)
  /\ exists w' p,
       POST Sample.env Sample.fields Sample.world = (Created, w')
       /\ posts w' = posts Sample.world ++ [p]
       /\ tags p = [[]]
       /\ map (fun v => trim (toString v))
            (FormData_getAll Sample.fields (lit "tags")) = []
       /\ tags p <> map (fun v => trim (toString v))
                      (FormData_getAll Sample.fields (lit "tags")).
Proof.
  split; [intros v []|].
  eexists _, _. split; [vm_compute; reflexivity|].
  split; [reflexivity|]. split; [reflexivity|]. split; [reflexivity|].
  vm_compute. discriminate.
Qed.


Lemma upload_before_persist_witness :
  FormData_get Sample.upload_form (lit "featuredImage") = Some (EFile Sample.png)
  /\ posts (snd (POST (Sample.with_upload (UrlFails (lit "offline")) Sample.env)
                   Sample.upload_form Sample.world))
     = posts Sample.world
  /\ trace (snd (POST Sample.env Sample.upload_form Sample.world))
     = [EvUpload (create_fileName Sample.env Sample.png); EvInsert (lit "p9")].
Proof.
  assert (Hf : FormData_get Sample.upload_form (lit "featuredImage")
               = Some (EFile Sample.png)) by reflexivity.
  split; [exact Hf|]. split.
  - apply (proj2 (upload_before_persist
                    (Sample.with_upload (UrlFails (lit "offline")) Sample.env)
                    Sample.upload_form Sample.world Sample.png Hf)).
    intros url E. discriminate E.
  - apply (proj1 (upload_before_persist Sample.env Sample.upload_form
                    Sample.world Sample.png Hf)).
    vm_compute. reflexivity.
Defined.

Lemma create_image_key_witness :
  exists w' n,
    POST Sample.env Sample.upload_form Sample.world = (Created, w')
    /\ 0 <= n <= 10 ^ 11
    /\ exists ext,
         bucket w'
         = bucket_put (lit "the-educative/blog/post-" ++ decimal n ++ DOT :: ext)
             Sample.png []
         /\ ext = lit "png".
Proof.
  assert (H : POST Sample.env Sample.upload_form Sample.world
              = (Created, snd (POST Sample.env Sample.upload_form Sample.world)))
    by (vm_compute; reflexivity).
  destruct (create_image_key _ _ _ _ H) as (p & _ & K).
  change (FormData_get Sample.upload_form (lit "featuredImage"))
    with (Some (EFile Sample.png)) in K.
  destruct K as (n & ext & Hn & _ & _ & Hext & Hb & _).
  exists (snd (POST Sample.env Sample.upload_form Sample.world)), n.
  split; [exact H|]. split; [exact Hn|]. exists ext. split; [exact Hb|].
  apply (Hext (lit "image") (lit "png")); reflexivity.
Defined.

(** C7 as stated fails when [Math.random()] returns 1/16: the product is
    6250000000, a numeral of ten digits. *)
Lemma create_image_key_counterexample :
  Math_random Sample.env = TWO53 / 16
  /\ random_component Sample.env = lit "6250000000"
  /\ length (random_component Sample.env) <> 11%nat
  /\ exists w',
       POST Sample.env Sample.upload_form Sample.world = (Created, w')
       /\ bucket w' = [(lit "the-educative/blog/post-6250000000.png", Sample.png)].
Proof.
  split; [reflexivity|]. split; [vm_compute; reflexivity|].
  split; [vm_compute; discriminate|].
  eexists. split; vm_compute; reflexivity.
Qed.

Lemma update_overwrites_listed_fields_witness :
  exists w' new,
    PUT Sample.env Sample.update_form Sample.world = (Updated, w')
    /\ Post_findOne (EStr (lit "p1")) (posts w') = Some new
    /\ title new = Some (EStr (lit "T"))
    /\ excerpt new = None
    /\ slug new = Some (EStr (lit "p1"))
    /\ publish_date new = 1000.
Proof.
  assert (H : PUT Sample.env Sample.update_form Sample.world
              = (Updated, snd (PUT Sample.env Sample.update_form Sample.world)))
    by (vm_compute; reflexivity).
  destruct (update_overwrites_listed_fields _ _ _ _ H)
    as (id & old & new & Hid & Hold & Hnew & Hset & Hkeep & _).
  vm_compute in Hid. injection Hid as <-.
  vm_compute in Hold. injection Hold as <-.
  exists (snd (PUT Sample.env Sample.update_form Sample.world)), new.
  split; [exact H|]. split; [exact Hnew|].
  destruct Hset as (Ht & _ & He & _). destruct Hkeep as (_ & Hs & Hd & _).
  rewrite Ht, He, Hs, Hd. repeat split.
Defined.

Lemma sample_unique_ids : unique_ids Sample.world.
Proof.
  unfold unique_ids. vm_compute.
  repeat constructor; simpl; intuition discriminate.
Qed.

Lemma missing_target_and_delete_witness :
  run Sample.env (Update Sample.stray_form) Sample.world = (NotFound, Sample.world)
  /\ (exists w',
        run Sample.env (Delete (Some (lit "p2"))) Sample.world = (Deleted, w')
        /\ Post_findOne (EStr (lit "p2")) (posts w') = None)
  /\ run Sample.env (Delete (Some (lit "p7"))) Sample.world = (NotFound, Sample.world).
Proof.
  destruct (missing_target_and_delete Sample.env Sample.world (lit "u1")
              {| user_id := lit "u1" |} eq_refl eq_refl) as (HU & HD & HN).
  split; [|split].
  - apply (HU Sample.stray_form (EStr (lit "p7"))).
    + rewrite payload_missing_dec. vm_compute. discriminate.
    + reflexivity.
    + reflexivity.
    + refine (proj1 (Post_findOne_None _ _) _). vm_compute. reflexivity.
  - destruct (HD (lit "p2") (Sample.mkPost (lit "p2") "draft" "c1" "s1" [] 5000))
      as (w' & H1 & H2 & _).
    + exact sample_unique_ids.
    + vm_compute. discriminate.
    + simpl. auto.
    + reflexivity.
    + exists w'. auto.
  - apply (HN (lit "p7")).
    + vm_compute. discriminate.
    + refine (proj1 (Post_findOne_None _ _) _). vm_compute. reflexivity.
Defined.

(* ================================================================== *)
(** ** More on the listing: what it reads and what it answers *)

Lemma decimal_not_nil (n : Z) : decimal n <> [].
Proof.
  unfold decimal. intros E.
  pose proof (digits_from_length_ge (Z.to_nat (Z.log2 n)) n []) as H.
  rewrite E in H. simpl in H. lia.
Qed.

Lemma query_page (page limit : Z) :
  0 <= page ->
  parse_integer
    (or_default (searchParams_get (query page limit) (lit "page")) (lit "1"))
  = Some page.
Proof.
  intros H.
  change (searchParams_get (query page limit) (lit "page")) with (Some (decimal page)).
  pose proof (decimal_not_nil page) as N. unfold or_default.
  destruct (decimal page) as [|c r] eqn:E; [congruence|].
  rewrite <- E. now apply parse_integer_decimal.
Qed.

Lemma query_limit (page limit : Z) :
  0 <= limit ->
  parse_integer
    (or_default (searchParams_get (query page limit) (lit "limit")) (lit "6"))
  = Some limit.
Proof.
  intros H.
  change (searchParams_get (query page limit) (lit "limit")) with (Some (decimal limit)).
  pose proof (decimal_not_nil limit) as N. unfold or_default.
  destruct (decimal limit) as [|c r] eqn:E; [congruence|].
  rewrite <- E. now apply parse_integer_decimal.
Qed.

(** The request [?page=p&limit=l] lists the page [p] of the read model. *)
Lemma listed_query (dts : Z -> jsstring) (w : World) (page limit : Z) :
  1 <= page -> 1 <= limit -> exact_paging page limit ->
  listed dts (query page limit) w = page_of page limit (readModel dts w).
Proof.
  intros Hp Hl Hx. unfold listed.
  rewrite (GET_ok dts (query page limit) w page limit);
    [reflexivity | apply query_page; lia | apply query_limit; lia
    | lia | lia | assumption].
Qed.

Lemma NoDup_map_filter {A B} (f : A -> B) (g : A -> bool) (l : list A) :
  NoDup (map f l) -> NoDup (map f (filter g l)).
Proof.
  induction l as [|x l IH]; simpl; intros H; [constructor|].
  inversion H as [|? ? Hx Hl]; subst.
  destruct (g x); simpl; [|auto]. constructor; [|auto].
  intros I. apply Hx. apply in_map_iff in I. destruct I as (y & E & Hy).
  apply filter_In in Hy. apply in_map_iff. exists y. tauto.
Qed.

Lemma length_joined (w : World) :
  unique_terms (categories w) -> unique_terms (subcategories w) ->
  Z.of_nat (length (joined w)) = totalPublished w.
Proof.
  intros Uc Us. unfold totalPublished.
  rewrite <- (length_map d_post), (joined_posts w Uc Us).
  now rewrite (Permutation_length (stage_sort_perm _)).
Qed.

Lemma firstn_plus {A} (a b : nat) (l : list A) :
  firstn (a + b) l = firstn a l ++ firstn b (skipn a l).
Proof.
  revert l; induction a as [|a IH]; intros l; [reflexivity|].
  destruct l as [|x l]; simpl; [now rewrite firstn_nil | now rewrite IH].
Qed.

Lemma concat_pages {A} (l : list A) (L n : nat) :
  concat (map (fun k => firstn L (skipn ((k - 1) * L) l)) (seq 1 n))
  = firstn (n * L) l.
Proof.
  induction n as [|n IH]; [reflexivity|].
  rewrite seq_S, map_app, concat_app, IH. cbn [map concat]. rewrite app_nil_r.
  replace (1 + n - 1)%nat with n by lia.
  replace (S n * L)%nat with (n * L + L)%nat by lia.
  symmetry. apply firstn_plus.
Qed.

Lemma page_of_nat {A} (k : nat) (limit : Z) (l : list A) :
  (1 <= k)%nat -> 0 <= limit ->
  page_of (Z.of_nat k) limit l
  = firstn (Z.to_nat limit) (skipn ((k - 1) * Z.to_nat limit) l).
Proof.
  intros Hk Hl. unfold page_of. do 2 f_equal.
  replace (Z.of_nat k - 1) with (Z.of_nat (k - 1)) by lia.
  rewrite <- (Z2Nat.id limit) at 1 by assumption.
  now rewrite <- Nat2Z.inj_mul, Nat2Z.id.
Qed.

Lemma sorted_app_inv {A} (key : A -> Z) (l1 l2 : list A) (a b : A) :
  StronglySorted (desc_by key) (l1 ++ l2) -> In a l1 -> In b l2 ->
  desc_by key a b.
Proof.
  induction l1 as [|x l1 IH]; simpl; intros S Ha Hb; [tauto|].
  inversion S as [|? ? S' F]; subst. destruct Ha as [->|Ha]; [|auto].
  rewrite Forall_forall in F. apply F. apply in_or_app. auto.
Qed.

(** X1.  The listing only reads: whatever the query, the world after the
    request is the world before it. *)
Theorem listing_reads_only (dts : Z -> jsstring) (q : SearchParams) (w : World) :
  snd (GET dts q w) = w.
Proof.
  unfold GET, try_catch, bind, aggregate, countDocuments_published, gets, ret.
  destruct (proper_paging _ _) as [c|]; [reflexivity|].
  destruct (irregular_paging w _ _) as [e|c]; reflexivity.
Qed.

(** X2.  A limit that is not a number, or that is 0, never gives a page
    count: if the database rejects the pipeline the listing answers 500
    with an error message, and whenever it answers 200 the totalPages of
    the answer is null, the division by such a limit having no finite
    result. *)
Theorem bad_limit_gives_no_page_count (dts : Z -> jsstring) (q : SearchParams)
    (w : World) :
  parse_integer (or_default (searchParams_get q (lit "limit")) (lit "6")) = None
  \/ parse_integer (or_default (searchParams_get q (lit "limit")) (lit "6"))
     = Some 0 ->
  (code (fst (GET dts q w)) = 500 /\ exists m, body (fst (GET dts q w)) = BError m)
  \/ (exists ps, fst (GET dts q w) = json (BPosts ps None) 200).
Proof.
  intros H.
  assert (L : parseInt (or_default (searchParams_get q (lit "limit")) (lit "6"))
              = NaN
              \/ parseInt (or_default (searchParams_get q (lit "limit")) (lit "6"))
                 = Fin 0).
  { unfold parseInt. destruct H as [->| ->]; [left|right]; reflexivity. }
  unfold GET, try_catch, bind, aggregate, countDocuments_published, gets, ret.
  destruct L as [-> | ->].
  - replace (proper_paging _ NaN) with (@None Cut)
      by (unfold proper_paging; now destruct (num_mul _ _)).
    destruct (irregular_paging w _ _) as [e|c]; simpl.
    + left. destruct e; simpl; eauto.
    + right. eauto.
  - replace (proper_paging _ (Fin 0)) with (@None Cut).
    2:{ unfold proper_paging. destruct (num_mul _ _); try reflexivity.
        now rewrite !andb_false_r. }
    destruct (irregular_paging w _ _) as [e|c]; simpl.
    + left. destruct e; simpl; eauto.
    + right. eauto.
Qed.

(** X3.  With unique category and subcategory identifiers, and page, limit
    and skip below 2^53, the page [page] of the listing holds exactly
    max 0 (min limit (total - (page - 1) * limit)) posts, [total] being the
    number of published posts: pages before the last one are full and
    pages after it are empty. *)
Theorem page_sizes (dts : Z -> jsstring) (w : World) (page limit : Z) :
  unique_terms (categories w) -> unique_terms (subcategories w) ->
  1 <= page -> 1 <= limit -> exact_paging page limit ->
  Z.of_nat (length (listed dts (query page limit) w))
  = Z.max 0 (Z.min limit (totalPublished w - (page - 1) * limit))
  /\ (forall tp, is_ceiling tp (totalPublished w) limit ->
        (page < tp -> Z.of_nat (length (listed dts (query page limit) w)) = limit)
        /\ (tp < page -> listed dts (query page limit) w = [])).
Proof.
  intros Uc Us Hp Hl Hx. rewrite listed_query by assumption.
  pose proof (length_joined w Uc Us) as T.
  assert (S0 : 0 <= (page - 1) * limit) by nia.
  assert (E : Z.of_nat (length (page_of page limit (readModel dts w)))
              = Z.max 0 (Z.min limit (totalPublished w - (page - 1) * limit))).
  { unfold page_of, readModel.
    rewrite length_firstn, length_skipn, length_map. lia. }
  split; [exact E|]. intros tp [C1 C2]. split.
  - intros Hlt. rewrite E. nia.
  - intros Hgt. apply length_zero_iff_nil.
    apply Nat2Z.inj. rewrite E. simpl. nia.
Qed.

(** X4.  With unique category and subcategory identifiers, fewer than 2^53
    published posts and a limit below 2^53, the pages 1 to totalPages of a
    listing, one after the other, are the whole read model.  The read model
    is the projection of documents sorted by date, newest first; the
    identifiers it shows are those of the published posts of the store and
    no others; and, post identifiers being unique, it shows each of them
    once. *)
Theorem pages_cover_read_model (dts : Z -> jsstring) (w : World) (limit tp : Z) :
  unique_terms (categories w) -> unique_terms (subcategories w) ->
  1 <= limit -> limit < 2 ^ 53 -> totalPublished w < 2 ^ 53 ->
  is_ceiling tp (totalPublished w) limit ->
  concat (map (fun k => listed dts (query (Z.of_nat k) limit) w)
            (seq 1 (Z.to_nat tp)))
  = readModel dts w
  /\ (exists ds, readModel dts w = map (project dts) ds
                 /\ StronglySorted (desc_by doc_date) ds
                 /\ forall d, In d ds -> view_of dts (project dts d) (d_post d))
  /\ (forall id, In id (map v_id (readModel dts w))
                 <-> exists p, In p (posts w) /\ status p = Some published
                               /\ _id p = id)
  /\ (unique_ids w -> NoDup (map v_id (readModel dts w))).
Proof.
  intros Uc Us Hl Xl Xt [C1 C2].
  assert (T0 : 0 <= totalPublished w) by (unfold totalPublished; lia).
  assert (V : map v_id (readModel dts w)
              = map _id (stage_sort (stage_match (posts w)))).
  { unfold readModel. rewrite map_map. simpl.
    rewrite <- (joined_posts w Uc Us), map_map. reflexivity. }
  split; [|split; [|split]].
  - rewrite (map_ext_in _
               (fun k => firstn (Z.to_nat limit)
                           (skipn ((k - 1) * Z.to_nat limit) (readModel dts w)))).
    + rewrite concat_pages. apply firstn_all2.
      pose proof (length_joined w Uc Us) as T.
      unfold readModel. rewrite length_map.
      assert (0 <= tp) by nia.
      apply Nat2Z.inj_le. rewrite Nat2Z.inj_mul, !Z2Nat.id by lia. lia.
    + intros k Hk. apply in_seq in Hk.
      rewrite listed_query; [apply page_of_nat; lia | lia | lia |].
      unfold exact_paging. repeat split; [nia | lia | nia].
  - exists (joined w). split; [reflexivity|]. split; [apply joined_sorted|].
    intros d _. unfold view_of. simpl. repeat split.
  - intros id. rewrite V, in_map_iff. split.
    + intros (p & E & Hp). apply stage_sort_In, filter_In in Hp.
      exists p. rewrite <- is_published_iff. tauto.
    + intros (p & Hp & Hs & E). exists p. split; [assumption|].
      apply stage_sort_In, filter_In. rewrite is_published_iff. tauto.
  - intros U. rewrite V.
    apply (Permutation_NoDup
             (Permutation_sym (Permutation_map _id (stage_sort_perm _)))).
    now apply NoDup_map_filter.
Qed.

(** X5.  Pages are ordered among themselves: every document of an earlier
    page is at least as recent as every document of a later page, and, the
    pipeline having fewer than 2^53 documents, the listing of a page is the
    projection of its stretch of the joined documents. *)
Theorem earlier_pages_are_newer (dts : Z -> jsstring) (w : World)
    (p1 p2 limit : Z) (d1 d2 : Doc) :
  1 <= p1 -> p1 < p2 -> 1 <= limit ->
  In d1 (page_of p1 limit (joined w)) -> In d2 (page_of p2 limit (joined w)) ->
  (Z.of_nat (length (joined w)) < 2 ^ 53 ->
   listed dts (query p1 limit) w = map (project dts) (page_of p1 limit (joined w))
   /\ listed dts (query p2 limit) w
      = map (project dts) (page_of p2 limit (joined w)))
  /\ doc_date d2 <= doc_date d1.
Proof.
  intros H1 H12 Hl I1 I2.
  assert (P : forall p, 1 <= p -> exact_paging p limit ->
            listed dts (query p limit) w
            = map (project dts) (page_of p limit (joined w))).
  { intros p Hp Hx. rewrite listed_query by assumption.
    unfold page_of, readModel. now rewrite skipn_map, firstn_map. }
  unfold page_of in I1, I2.
  set (s1 := Z.to_nat ((p1 - 1) * limit)) in *.
  set (s2 := Z.to_nat ((p2 - 1) * limit)) in *.
  set (L := Z.to_nat limit) in *.
  assert (Hs : (s1 + L <= s2)%nat) by (unfold s1, s2, L; nia).
  split.
  { intros B.
    assert (S2 : (s2 < length (joined w))%nat).
    { destruct (Nat.lt_ge_cases s2 (length (joined w))) as [Y|Y]; [exact Y|].
      rewrite (skipn_all2 (joined w) Y), firstn_nil in I2. destruct I2. }
    assert (Z2 : (p2 - 1) * limit < 2 ^ 53) by (unfold s2 in S2; lia).
    split; apply P; try lia; unfold exact_paging; repeat split; nia. }
  rewrite firstn_skipn_comm in I1. apply In_skipn in I1.
  apply In_firstn in I2.
  assert (I1' : In d1 (firstn s2 (joined w))).
  { replace s2 with (s1 + L + (s2 - (s1 + L)))%nat by lia.
    rewrite firstn_plus. apply in_or_app. auto. }
  pose proof (joined_sorted w) as S.
  rewrite <- (firstn_skipn s2 (joined w)) in S.
  exact (sorted_app_inv doc_date _ _ d1 d2 S I1' I2).
Qed.

Lemma unwind_In_full {A B} (mk : option Term -> A -> B) (x : A) (ms : list Term)
    (y : B) :
  In y (unwind mk x ms) ->
  exists c, y = mk c x
            /\ match c with Some t => In t ms | None => ms = [] end.
Proof.
  destruct ms as [|t ms]; simpl.
  - intros [<-|[]]. exists None. auto.
  - intros [<-|H].
    + exists (Some t). auto.
    + apply in_map_iff in H. destruct H as (t' & <- & Ht'). exists (Some t'). auto.
Qed.

Lemma stages_flat_map (w : World) (l : list Post) :
  stage_tags w (stage_subcategory w (stage_category w l)) = flat_map (docs_of w) l.
Proof.
  induction l as [|p l IH]; [reflexivity|].
  change (flat_map (docs_of w) (p :: l))
    with (docs_of w p ++ flat_map (docs_of w) l).
  rewrite <- IH. unfold docs_of. change (p :: l) with ([p] ++ l).
  unfold stage_tags, stage_subcategory, stage_category.
  now rewrite !flat_map_app, map_app.
Qed.

(** The documents of the pipeline are the documents of the published
    posts of the store. *)
Lemma joined_In_iff (w : World) (d : Doc) :
  In d (joined w)
  <-> exists p, In p (posts w) /\ is_published p = true /\ In d (docs_of w p).
Proof.
  unfold joined. rewrite stages_flat_map, in_flat_map. split.
  - intros (p & Hp & Hd). apply stage_sort_In, filter_In in Hp. exists p. tauto.
  - intros (p & Hp & Hs & Hd). exists p. split; [|assumption].
    apply stage_sort_In, filter_In. auto.
Qed.

Lemma docs_of_In (w : World) (p : Post) (d : Doc) :
  In d (docs_of w p) ->
  d_post d = p
  /\ match d_category d with
     | Some c => In c (lookup (category p) (categories w))
     | None => lookup (category p) (categories w) = []
     end
  /\ match d_subcategory d with
     | Some c => In c (lookup (subcategory p) (subcategories w))
     | None => lookup (subcategory p) (subcategories w) = []
     end
  /\ d_tags d = filter (fun t => existsb (str_eqb (term_id t)) (tags p)) (tagsColl w).
Proof.
  unfold docs_of, stage_tags, stage_subcategory, stage_category.
  intros H. apply in_map_iff in H. destruct H as (t & <- & Ht). simpl.
  apply in_flat_map in Ht. destruct Ht as (t0 & Ht0 & Ht).
  apply unwind_In_full in Ht. destruct Ht as (s & -> & Hs). simpl.
  simpl in Ht0. rewrite app_nil_r in Ht0.
  apply unwind_In_full in Ht0. destruct Ht0 as (c & -> & Hc). simpl in *.
  repeat split; assumption.
Qed.

Lemma lookup_nil_inv (ref : option entry) (coll : list Term) :
  lookup ref coll = [] ->
  forall c, In c coll -> ref <> Some (EStr (term_id c)).
Proof.
  intros H c Hc E. subst ref. unfold lookup in H.
  assert (I : In c (filter (fun t => id_matches (EStr (term_id c)) (term_id t)) coll)).
  { apply filter_In. split; [assumption|]. now apply id_matches_iff. }
  rewrite H in I. exact I.
Qed.

Lemma readModel_In (dts : Z -> jsstring) (w : World) (v : PostView) :
  In v (readModel dts w) ->
  exists p d, v = project dts d /\ In p (posts w) /\ is_published p = true
              /\ In d (docs_of w p).
Proof.
  unfold readModel. intros H. apply in_map_iff in H.
  destruct H as (d & <- & Hd). apply joined_In_iff in Hd.
  destruct Hd as (p & Hp & Hs & Hd). exists p, d. auto.
Qed.

(** X6.  In every listed post the tags and the tagNames run in parallel:
    they have the same length, the name at a position is the name of the
    tag whose identifier is at that position, every listed identifier is
    one of the post's tags and one of the tags collection, and every tag of
    the post that is in the collection is listed; a tag reference that
    resolves to nothing is not. *)
Theorem listed_tags_resolve (dts : Z -> jsstring) (w : World) (v : PostView) :
  In v (readModel dts w) ->
  exists p,
    In p (posts w) /\ _id p = v_id v
    /\ length (v_tags v) = length (v_tagNames v)
    /\ (forall i id, nth_error (v_tags v) i = Some id ->
          In id (tags p)
          /\ exists t, In t (tagsColl w) /\ term_id t = id
                       /\ nth_error (v_tagNames v) i = Some (term_name t))
    /\ (forall id, In id (v_tags v)
                   <-> In id (tags p) /\ In id (map term_id (tagsColl w))).
Proof.
  intros H. apply readModel_In in H. destruct H as (p & d & -> & Hp & _ & Hd).
  apply docs_of_In in Hd. destruct Hd as (Hpost & _ & _ & Htags).
  exists p. split; [assumption|]. simpl. rewrite Hpost.
  split; [reflexivity|]. split; [now rewrite !length_map|].
  assert (F : forall t, In t (d_tags d)
                        <-> In t (tagsColl w) /\ In (term_id t) (tags p)).
  { intros t. rewrite Htags, filter_In, existsb_exists. split.
    - intros [Ht (x & Hx & E)]. apply str_eqb_eq in E. subst x. auto.
    - intros [Ht Hx]. split; [assumption|].
      exists (term_id t). split; [assumption | apply str_eqb_refl]. }
  split.
  - intros i id Hi. rewrite nth_error_map in Hi.
    destruct (nth_error (d_tags d) i) as [t|] eqn:E; [|discriminate].
    injection Hi as <-. pose proof (nth_error_In _ _ E) as Ht.
    apply F in Ht. split; [tauto|]. exists t. split; [tauto|].
    split; [reflexivity|]. now rewrite nth_error_map, E.
  - intros id. rewrite !in_map_iff. split.
    + intros (t & <- & Ht). apply F in Ht. split; [tauto|]. exists t. tauto.
    + intros [Hid (t & <- & Ht)]. exists t. split; [reflexivity|]. apply F. auto.
Qed.

Lemma resolved_reference (ref : option entry) (coll : list Term) (o : option Term) :
  match o with Some c => In c (lookup ref coll) | None => lookup ref coll = [] end ->
  (forall cid, option_map term_id o = Some cid ->
     ref = Some (EStr cid)
     /\ exists c, In c coll /\ term_id c = cid
                  /\ match o with Some c => term_name c | None => None end
                     = term_name c)
  /\ (option_map term_id o = None
      <-> forall c, In c coll -> ref <> Some (EStr (term_id c))).
Proof.
  destruct o as [c|]; simpl; intros H.
  - apply lookup_In in H. destruct H as [Hin Href]. split.
    + intros cid E. injection E as <-. split; [assumption|]. exists c. auto.
    + split; [discriminate|]. intros F. exfalso. exact (F c Hin Href).
  - split; [discriminate|]. split; [|reflexivity].
    intros _. now apply lookup_nil_inv.
Qed.

(** X7.  The category a listed post shows is the post's own reference and
    the categoryName is the name of the Category of that identifier; the
    category is null exactly when the reference resolves to no Category.
    The same holds of the subcategory. *)
Theorem listed_category_resolves (dts : Z -> jsstring) (w : World) (v : PostView) :
  In v (readModel dts w) ->
  exists p,
    In p (posts w) /\ _id p = v_id v
    /\ (forall cid, v_category v = Some cid ->
          category p = Some (EStr cid)
          /\ exists c, In c (categories w) /\ term_id c = cid
                       /\ v_categoryName v = term_name c)
    /\ (v_category v = None
        <-> forall c, In c (categories w) -> category p <> Some (EStr (term_id c)))
    /\ (forall sid, v_subcategory v = Some sid ->
          subcategory p = Some (EStr sid)
          /\ exists c, In c (subcategories w) /\ term_id c = sid
                       /\ v_subcategoryName v = term_name c)
    /\ (v_subcategory v = None
        <-> forall c, In c (subcategories w) ->
              subcategory p <> Some (EStr (term_id c))).
Proof.
  intros H. apply readModel_In in H. destruct H as (p & d & -> & Hp & _ & Hd).
  apply docs_of_In in Hd. destruct Hd as (Hpost & Hc & Hs & _).
  exists p. split; [assumption|]. simpl. rewrite Hpost.
  split; [reflexivity|].
  destruct (resolved_reference _ _ _ Hc) as [C1 C2].
  destruct (resolved_reference _ _ _ Hs) as [S1 S2].
  split; [exact C1|]. split; [exact C2|]. split; [exact S1 | exact S2].
Qed.

(** X8.  When no post of the store is published, a listing with a page
    and a limit that are at least 1 and, with the skip, below 2^53 answers
    200 with no posts and totalPages 0. *)
Theorem listing_of_nothing_published (dts : Z -> jsstring) (w : World)
    (page limit : Z) :
  (forall p, In p (posts w) -> status p <> Some published) ->
  1 <= page -> 1 <= limit -> exact_paging page limit ->
  GET dts (query page limit) w = (json (BPosts [] (Some 0)) 200, w).
Proof.
  intros Hn Hp Hl Hx.
  assert (E : filter is_published (posts w) = []).
  { induction (posts w) as [|x l IH]; [reflexivity|]. simpl.
    destruct (is_published x) eqn:P.
    - apply is_published_iff in P. exfalso. apply (Hn x); simpl; auto.
    - apply IH. intros p Hin. apply Hn. simpl; auto. }
  rewrite (GET_ok dts (query page limit) w page limit);
    [| apply query_page; lia | apply query_limit; lia | lia | lia | assumption].
  unfold totalPublished, page_of, readModel, joined, stage_match. rewrite E.
  simpl. rewrite skipn_nil, firstn_nil. reflexivity.
Qed.

(* ================================================================== *)
(** ** The writes, once validation and authorization have passed *)

Lemma known_user_found (u : jsstring) (w : World) :
  known_user u w -> exists usr, User_findOne u (users w) = Some usr.
Proof.
  intros (usr & Hin & E). destruct (User_findOne u (users w)) as [x|] eqn:F; [eauto|].
  exfalso. exact (proj1 (User_findOne_None u (users w)) F usr Hin E).
Qed.

Lemma found_user_known (u : jsstring) (w : World) (usr : User) :
  User_findOne u (users w) = Some usr -> known_user u w.
Proof.
  unfold User_findOne. intros H. apply find_some in H. destruct H as [Hin E].
  apply str_eqb_eq in E. exists usr. auto.
Qed.

Lemma POST_authorized (e : Env) (body : FormData) (w : World) (u : jsstring) :
  required_missing body = false -> env_session e = Some u -> known_user u w ->
  POST e body w
  = match attached body with
    | Some f =>
        match env_upload e with
        | UploadFails err => (json (BErrorObj (OtherError err)) 500, w)
        | UrlFails err =>
            (json (BErrorObj (OtherError err)) 500, uploaded (create_fileName e f) f w)
        | UploadOk url =>
            match env_save e with
            | Some ex => (catch_write ex, uploaded (create_fileName e f) f w)
            | None => (Created, inserted (with_featuredImage url (new_Post e body))
                                  (uploaded (create_fileName e f) f w))
            end
        end
    | None =>
        match env_save e with
        | Some ex => (catch_write ex, w)
        | None => (Created, inserted (new_Post e body) w)
        end
    end.
Proof.
  intros Hv Hs Hu. apply known_user_found in Hu. destruct Hu as [usr Hu].
  unfold attached. unfold_handler. rewrite Hv, Hs, Hu.
  destruct (FormData_get body (lit "featuredImage")) as [[s|f]|];
    try destruct (env_upload e); destruct (env_save e); reflexivity.
Qed.

Lemma PUT_authorized (e : Env) (body : FormData) (w : World) (u : jsstring)
    (id : entry) (old : Post) :
  required_missing body = false -> env_session e = Some u -> known_user u w ->
  FormData_get body (lit "_id") = Some id -> falsy (Some id) = false ->
  Post_findOne id (posts w) = Some old ->
  PUT e body w
  = match attached body with
    | Some f =>
        match env_upload e with
        | UploadFails err => (json (BErrorObj (OtherError err)) 500, w)
        | UrlFails err =>
            (json (BErrorObj (OtherError err)) 500, uploaded (update_fileName id f) f w)
        | UploadOk url =>
            match env_save e with
            | Some ex => (catch_write ex, uploaded (update_fileName id f) f w)
            | None => (Updated, replaced (with_featuredImage url (assign_fields body old))
                                  (uploaded (update_fileName id f) f w))
            end
        end
    | None =>
        match env_save e with
        | Some ex => (catch_write ex, w)
        | None => (Updated, replaced (assign_fields body old) w)
        end
    end.
Proof.
  intros Hv Hs Hu Hid Hf Hold. apply known_user_found in Hu. destruct Hu as [usr Hu].
  unfold attached. unfold_handler. rewrite Hv, Hs, Hu, Hid, Hf, Hold.
  destruct (FormData_get body (lit "featuredImage")) as [[s|f]|];
    try destruct (env_upload e); destruct (env_save e); reflexivity.
Qed.

Lemma DELETE_authorized (e : Env) (id : jsstring) (w : World) (u : jsstring) :
  id <> [] -> env_session e = Some u -> known_user u w ->
  DELETE e (Some id) w
  = match Post_findOne (EStr id) (posts w) with
    | Some q => (Deleted, removed (EStr id) q w)
    | None => (NotFound, w)
    end.
Proof.
  intros Hne Hs Hu. apply known_user_found in Hu. destruct Hu as [usr Hu].
  destruct id as [|c r]; [congruence|]. unfold_handler.
  rewrite Hs. cbv beta iota. rewrite Hu.
  destruct (Post_findOne (EStr (c :: r)) (posts w)); reflexivity.
Qed.

Lemma DELETE_Deleted_inv (e : Env) (id : option jsstring) (w w' : World) :
  DELETE e id w = (Deleted, w') ->
  exists i u q,
    id = Some i /\ i <> [] /\ env_session e = Some u /\ known_user u w
    /\ Post_findOne (EStr i) (posts w) = Some q /\ w' = removed (EStr i) q w.
Proof.
  unfold_handler. intros H.
  destruct id as [[|c r]|]; [wrong_code H| |wrong_code H].
  destruct (env_session e) as [u|]; [|wrong_code H].
  destruct (User_findOne u (users w)) as [usr|] eqn:Hu; [|wrong_code H].
  destruct (Post_findOne (EStr (c :: r)) (posts w)) as [q|] eqn:Hq;
    [|wrong_code H].
  injection H as <-. exists (c :: r), u, q.
  split; [reflexivity|]. split; [discriminate|]. split; [reflexivity|].
  split; [eapply found_user_known; eassumption|]. split; [assumption|reflexivity].
Qed.

(** The collections a write leaves alone, and the trace it extends. *)
Lemma run_frame (e : Env) (op : Operation) (w : World) :
  users (snd (run e op w)) = users w
  /\ categories (snd (run e op w)) = categories w
  /\ subcategories (snd (run e op w)) = subcategories w
  /\ tagsColl (snd (run e op w)) = tagsColl w.
Proof.
  destruct op as [body|body|id]; simpl; unfold_handler.
  - destruct (required_missing body); [auto|].
    destruct (env_session e) as [u|]; [|auto].
    destruct (User_findOne u (users w)); [|auto].
    destruct (FormData_get body (lit "featuredImage")) as [[s|f]|];
      try destruct (env_upload e); destruct (env_save e); simpl; auto.
  - destruct (required_missing body); [auto|].
    destruct (env_session e) as [u|]; [|auto].
    destruct (User_findOne u (users w)); [|auto].
    destruct (FormData_get body (lit "_id")) as [i|]; [|auto].
    destruct (falsy (Some i)); [auto|].
    destruct (Post_findOne i (posts w)); [|auto].
    destruct (FormData_get body (lit "featuredImage")) as [[s|f]|];
      try destruct (env_upload e); destruct (env_save e); simpl; auto.
  - destruct id as [[|c r]|]; [auto| |auto].
    destruct (env_session e) as [u|]; [|auto].
    destruct (User_findOne u (users w)); [|auto].
    destruct (Post_findOne (EStr (c :: r)) (posts w)); simpl; auto.
Qed.

Lemma docs_of_frame (w w' : World) (p : Post) :
  categories w' = categories w -> subcategories w' = subcategories w ->
  tagsColl w' = tagsColl w -> docs_of w' p = docs_of w p.
Proof.
  intros Hc Hs Ht.
  unfold docs_of, stage_tags, stage_subcategory, stage_category.
  now rewrite Hc, Hs, Ht.
Qed.

(** X9.  A write that does not answer with its success (Created, Updated,
    Deleted) has changed no post: whatever goes wrong, the posts of the
    store are the ones from before. *)
Theorem failed_write_changes_no_post (e : Env) (op : Operation) (w : World) :
  fst (run e op w) <> success op -> posts (snd (run e op w)) = posts w.
Proof.
  destruct op as [body|body|id]; simpl; unfold_handler.
  - destruct (required_missing body); [auto|].
    destruct (env_session e) as [u|]; [|auto].
    destruct (User_findOne u (users w)); [|auto].
    destruct (FormData_get body (lit "featuredImage")) as [[s|f]|];
      try destruct (env_upload e); destruct (env_save e); simpl; auto;
      intros N; exfalso; apply N; reflexivity.
  - destruct (required_missing body); [auto|].
    destruct (env_session e) as [u|]; [|auto].
    destruct (User_findOne u (users w)); [|auto].
    destruct (FormData_get body (lit "_id")) as [i|]; [|auto].
    destruct (falsy (Some i)); [auto|].
    destruct (Post_findOne i (posts w)); [|auto].
    destruct (FormData_get body (lit "featuredImage")) as [[s|f]|];
      try destruct (env_upload e); destruct (env_save e); simpl; auto;
      intros N; exfalso; apply N; reflexivity.
  - destruct id as [[|c r]|]; [auto| |auto].
    destruct (env_session e) as [u|]; [|auto].
    destruct (User_findOne u (users w)); [|auto].
    destruct (Post_findOne (EStr (c :: r)) (posts w)); simpl; auto.
    intros N; exfalso; apply N; reflexivity.
Qed.

(** X10.  No write touches the users, the categories, the subcategories
    or the tags of the store; a delete leaves every stored object in the
    bucket, also the image of the post it removes, and a create or an
    update without an attached file leaves the bucket as it was. *)
Theorem writes_leave_the_rest (e : Env) (op : Operation) (w : World) :
  users (snd (run e op w)) = users w
  /\ categories (snd (run e op w)) = categories w
  /\ subcategories (snd (run e op w)) = subcategories w
  /\ tagsColl (snd (run e op w)) = tagsColl w
  /\ match op with
     | Delete _ => bucket (snd (run e op w)) = bucket w
     | Create body | Update body =>
         attached body = None -> bucket (snd (run e op w)) = bucket w
     end.
Proof.
  pose proof (run_frame e op w) as (H1 & H2 & H3 & H4).
  repeat (split; [assumption|]). unfold attached.
  destruct op as [body|body|id]; simpl; unfold_handler.
  - destruct (required_missing body); [auto|].
    destruct (env_session e) as [u|]; [|auto].
    destruct (User_findOne u (users w)); [|auto].
    destruct (FormData_get body (lit "featuredImage")) as [[s|f]|];
      try discriminate; destruct (env_save e); simpl; auto.
  - destruct (required_missing body); [auto|].
    destruct (env_session e) as [u|]; [|auto].
    destruct (User_findOne u (users w)); [|auto].
    destruct (FormData_get body (lit "_id")) as [i|]; [|auto].
    destruct (falsy (Some i)); [auto|].
    destruct (Post_findOne i (posts w)); [|auto].
    destruct (FormData_get body (lit "featuredImage")) as [[s|f]|];
      try discriminate; destruct (env_save e); simpl; auto.
  - destruct id as [[|c r]|]; [auto| |auto].
    destruct (env_session e) as [u|]; [|auto].
    destruct (User_findOne u (users w)); [|auto].
    destruct (Post_findOne (EStr (c :: r)) (posts w)); simpl; auto.
Qed.

(** X11.  A create with the five required fields, sent by a known user,
    whose upload (if a file is attached) and save go through, answers
    Created and appends exactly one post: it carries the fresh identifier
    and the supplied title, slug, content, excerpt, author, category,
    subcategory, meta fields, imageCredit and status (null where the form
    has none); an [_id] in the form is ignored.  Every post from before is
    still there, unchanged and in place. *)
Theorem create_persists_supplied_fields (e : Env) (body : FormData) (w : World)
    (u : jsstring) :
  ~ payload_missing (Create body) -> env_session e = Some u -> known_user u w ->
  env_save e = None ->
  (attached body <> None -> exists url, env_upload e = UploadOk url) ->
  exists p,
    fst (POST e body w) = Created
    /\ posts (snd (POST e body w)) = posts w ++ [p]
    /\ _id p = env_objectId e
    /\ title p = FormData_get body (lit "title")
    /\ slug p = FormData_get body (lit "slug")
    /\ content p = FormData_get body (lit "content")
    /\ excerpt p = FormData_get body (lit "excerpt")
    /\ author p = FormData_get body (lit "author")
    /\ category p = FormData_get body (lit "category")
    /\ subcategory p = FormData_get body (lit "subcategory")
    /\ metaTitle p = FormData_get body (lit "metaTitle")
    /\ metaDescription p = FormData_get body (lit "metaDescription")
    /\ metaKeywords p = FormData_get body (lit "metaKeywords")
    /\ imageCredit p = FormData_get body (lit "imageCredit")
    /\ status p = FormData_get body (lit "status").
Proof.
  intros Hv Hs Hu Hsave Hup.
  assert (V : required_missing body = false).
  { destruct (required_missing body) eqn:E; [|reflexivity].
    exfalso. apply Hv. now apply required_missing_iff. }
  rewrite (POST_authorized e body w u V Hs Hu), Hsave.
  destruct (attached body) as [f|].
  - destruct Hup as [url ->]; [discriminate|].
    eexists. repeat split; reflexivity.
  - eexists. repeat split; reflexivity.
Qed.

(** X12.  There is no rollback of an upload.  When a file is attached and
    stored but the request then fails, because the download URL cannot be
    had or because the save throws, no post is created or changed and the
    stored object stays in the bucket under its key; this is so for a
    create and for an update of an existing post. *)
Theorem failed_persist_leaves_object (e : Env) (body : FormData) (w : World)
    (u : jsstring) (f : File) :
  ~ payload_missing (Create body) -> env_session e = Some u -> known_user u w ->
  attached body = Some f ->
  (exists err, env_upload e = UrlFails err)
  \/ (exists url ex, env_upload e = UploadOk url /\ env_save e = Some ex) ->
  (fst (POST e body w) <> Created
   /\ posts (snd (POST e body w)) = posts w
   /\ bucket_get (create_fileName e f) (bucket (snd (POST e body w))) = Some f)
  /\ (forall id old,
        FormData_get body (lit "_id") = Some id -> falsy (Some id) = false ->
        Post_findOne id (posts w) = Some old ->
        fst (PUT e body w) <> Updated
        /\ posts (snd (PUT e body w)) = posts w
        /\ bucket_get (update_fileName id f) (bucket (snd (PUT e body w))) = Some f).
Proof.
  intros Hv Hs Hu Hf Hfail.
  assert (V : required_missing body = false).
  { destruct (required_missing body) eqn:E; [|reflexivity].
    exfalso. apply Hv. now apply required_missing_iff. }
  assert (G : forall key b, bucket_get key (bucket_put key f b) = Some f).
  { intros key b. unfold bucket_get, bucket_put. simpl.
    now rewrite str_eqb_refl. }
  split.
  - rewrite (POST_authorized e body w u V Hs Hu), Hf.
    destruct Hfail as [(err & ->)|(url & ex & -> & ->)]; simpl;
      (split; [|split; [reflexivity | apply G]]).
    + intros E. discriminate E.
    + intros E. destruct ex; discriminate E.
  - intros id old Hid Hfalsy Hold.
    rewrite (PUT_authorized e body w u id old V Hs Hu Hid Hfalsy Hold), Hf.
    destruct Hfail as [(err & ->)|(url & ex & -> & ->)]; simpl;
      (split; [|split; [reflexivity | apply G]]).
    + intros E. discriminate E.
    + intros E. destruct ex; discriminate E.
Qed.

(** X13.  An update never adds, removes or reorders posts: whatever the
    request and its outcome, the identifiers of the posts of the store are
    the same list as before. *)
Theorem update_keeps_identifiers (e : Env) (body : FormData) (w : World) :
  map _id (posts (snd (PUT e body w))) = map _id (posts w).
Proof.
  unfold_handler.
  destruct (required_missing body); [reflexivity|].
  destruct (env_session e) as [u|]; [|reflexivity].
  destruct (User_findOne u (users w)); [|reflexivity].
  destruct (FormData_get body (lit "_id")) as [i|]; [|reflexivity].
  destruct (falsy (Some i)); [reflexivity|].
  destruct (Post_findOne i (posts w)); [|reflexivity].
  destruct (FormData_get body (lit "featuredImage")) as [[s|f]|];
    try destruct (env_upload e); destruct (env_save e); simpl;
    try reflexivity; apply ids_replace_post.
Qed.

Lemma replace_post_twice (p : Post) (ps : list Post) :
  replace_post p (replace_post p ps) = replace_post p ps.
Proof.
  induction ps as [|x r IH]; simpl; [reflexivity|].
  destruct (str_eqb (_id x) (_id p)) eqn:E; simpl.
  - now rewrite str_eqb_refl.
  - now rewrite E, IH.
Qed.

Lemma bucket_put_twice (key : jsstring) (f : File) (b : list (jsstring * File)) :
  bucket_put key f (bucket_put key f b) = bucket_put key f b.
Proof.
  unfold bucket_put. simpl. rewrite str_eqb_refl. simpl. f_equal.
  induction b as [|kv b IH]; simpl; [reflexivity|].
  destruct (negb (str_eqb (fst kv) key)) eqn:E; simpl; [now rewrite E, IH | exact IH].
Qed.

(** X14.  An update is idempotent on the store, provided the second
    request meets the same collaborators: when a request was answered
    Updated and the same form is sent again, by any known user, the save
    succeeding and, if a file is attached, the upload giving the download
    URL it gave the first time, the answer is Updated again and the posts
    and the bucket are exactly as the first request left them. *)
Theorem update_twice_is_update_once (e e' : Env) (body : FormData) (w w1 : World)
    (u' : jsstring) :
  PUT e body w = (Updated, w1) ->
  env_session e' = Some u' -> known_user u' w -> env_save e' = None ->
  (attached body <> None -> env_upload e' = env_upload e) ->
  exists w2,
    PUT e' body w1 = (Updated, w2)
    /\ posts w2 = posts w1 /\ bucket w2 = bucket w1.
Proof.
  intros H Hs' Hu' Hsave' Hsame. pose proof H as H0. apply PUT_Updated_inv in H.
  destruct H as (V & (u & usr & Hs & Hu) & Hsave & id & old & Hid & Hold & H).
  assert (F : falsy (Some id) = false).
  { destruct (falsy (Some id)) eqn:F; [|reflexivity]. exfalso.
    pose proof (PUT_without_id e body w V) as P. rewrite Hid in P.
    rewrite (P F), Hs, Hu in H0. wrong_code H0. }
  clear H0.
  destruct (FormData_get body (lit "featuredImage")) as [[s|f]|] eqn:Hf.
  1, 3: subst w1;
    assert (Hu1 : known_user u' (replaced (assign_fields body old) w)) by exact Hu';
    assert (Hnew : Post_findOne id (posts (replaced (assign_fields body old) w))
                   = Some (assign_fields body old))
      by (simpl; apply find_replace_same with (old := old); [assumption | reflexivity]);
    rewrite (PUT_authorized e' body _ u' id _ V Hs' Hu1 Hid F Hnew);
    unfold attached; rewrite Hf, Hsave';
    eexists; (split; [reflexivity|]); simpl; split; [|reflexivity];
    apply replace_post_twice.
  destruct H as (url & Hup & ->).
  assert (Hup' : env_upload e' = UploadOk url).
  { rewrite <- Hup. apply Hsame. unfold attached. rewrite Hf. discriminate. }
  set (new := with_featuredImage url (assign_fields body old)).
  set (w0 := uploaded (update_fileName id f) f w).
  assert (Hu1 : known_user u' (replaced new w0)) by exact Hu'.
  assert (Hnew : Post_findOne id (posts (replaced new w0)) = Some new).
  { simpl. apply find_replace_same with (old := old); [assumption | reflexivity]. }
  rewrite (PUT_authorized e' body _ u' id _ V Hs' Hu1 Hid F Hnew).
  unfold attached. rewrite Hf, Hup', Hsave'.
  eexists. split; [reflexivity|]. simpl. split.
  - apply replace_post_twice.
  - apply bucket_put_twice.
Qed.

Lemma find_appended (id : entry) (ps : list Post) (p : Post) :
  (forall q, In q ps -> id <> EStr (_id q)) -> id = EStr (_id p) ->
  Post_findOne id (ps ++ [p]) = Some p /\ remove_post id (ps ++ [p]) = ps.
Proof.
  intros Hfresh Hid. unfold Post_findOne.
  induction ps as [|x r IH]; simpl.
  - rewrite (proj2 (id_matches_iff id (_id p)) Hid). auto.
  - rewrite (proj2 (id_matches_false id (_id x))) by (apply Hfresh; simpl; auto).
    destruct IH as [I1 I2]; [intros q Hq; apply Hfresh; simpl; auto|].
    split; [exact I1 | now rewrite I2].
Qed.

(** X15.  Create and delete are inverse on the posts: when a create was
    answered Created under an identifier that no post of the store
    carried, a delete of that identifier by a known user is answered
    Deleted and the posts of the store are again the ones from before the
    create. *)
Theorem create_then_delete_restores (e e' : Env) (body : FormData)
    (w w1 : World) (u' : jsstring) :
  POST e body w = (Created, w1) ->
  (forall q, In q (posts w) -> _id q <> env_objectId e) ->
  env_objectId e <> [] ->
  env_session e' = Some u' -> known_user u' w ->
  exists w2,
    DELETE e' (Some (env_objectId e)) w1 = (Deleted, w2)
    /\ posts w2 = posts w.
Proof.
  intros H Hfresh Hne Hs Hu. apply POST_Created_inv in H.
  destruct H as (_ & _ & _ & H).
  assert (W : exists p w0, w1 = inserted p w0 /\ _id p = env_objectId e
                           /\ posts w0 = posts w /\ users w0 = users w).
  { destruct (FormData_get body (lit "featuredImage")) as [[s|f]|];
      [| destruct H as (url & _ & H) |]; subst w1; eexists _, _;
      (split; [reflexivity|]); auto. }
  destruct W as (p & w0 & -> & Hp & Hposts & Husers).
  assert (Hu1 : known_user u' (inserted p w0)).
  { unfold known_user. simpl. rewrite Husers. exact Hu. }
  rewrite (DELETE_authorized e' _ _ u' Hne Hs Hu1). simpl. rewrite Hposts.
  destruct (find_appended (EStr (env_objectId e)) (posts w) p) as [F R].
  - intros q Hq E. injection E as E. exact (Hfresh q Hq (eq_sym E)).
  - now rewrite Hp.
  - rewrite F. eexists. split; [reflexivity|]. simpl. now rewrite Hposts, R.
Qed.

(** X16.  A deleted post stays gone: after a delete that was answered
    Deleted, identifiers being unique, a second delete of the same
    identifier and an update that targets it are both answered NotFound and
    change nothing. *)
Theorem deleted_post_stays_gone (e e' : Env) (id : jsstring) (w w1 : World)
    (u' : jsstring) :
  DELETE e (Some id) w = (Deleted, w1) -> unique_ids w ->
  env_session e' = Some u' -> known_user u' w ->
  DELETE e' (Some id) w1 = (NotFound, w1)
  /\ (forall body,
        ~ payload_missing (Update body) ->
        FormData_get body (lit "_id") = Some (EStr id) ->
        PUT e' body w1 = (NotFound, w1)).
Proof.
  intros H ND Hs Hu. apply DELETE_Deleted_inv in H.
  destruct H as (i & u & q & Ei & Hne & _ & _ & Hq & ->). injection Ei as <-.
  assert (Hu1 : known_user u' (removed (EStr id) q w)) by exact Hu.
  assert (Gone : Post_findOne (EStr id) (posts (removed (EStr id) q w)) = None).
  { simpl. now apply find_remove_same. }
  split.
  - rewrite (DELETE_authorized e' id _ u' Hne Hs Hu1). now rewrite Gone.
  - intros body Hv Hid.
    assert (V : required_missing body = false).
    { destruct (required_missing body) eqn:E; [|reflexivity].
      exfalso. apply Hv. now apply required_missing_iff. }
    destruct (known_user_found _ _ Hu1) as [usr Hf].
    unfold_handler. rewrite V, Hs, Hf, Hid.
    destruct id as [|c r]; [congruence|].
    change (falsy (Some (EStr (c :: r)))) with false. cbv beta iota.
    now rewrite Gone.
Qed.

Lemma stage_match_appended (ps : list Post) (p : Post) :
  stage_match (ps ++ [p])
  = stage_match ps ++ (if is_published p then [p] else []).
Proof. unfold stage_match. rewrite filter_app. simpl. now destruct (is_published p). Qed.

(** X17.  What a create does to the listing.  A post created with a
    status other than published leaves the read model and the count of
    published posts as they were; a post created as published is in the
    read model under its identifier, the count grows by one, and every
    post listed before is listed still. *)
Theorem created_post_and_listing (dts : Z -> jsstring) (e : Env) (body : FormData)
    (w w1 : World) :
  POST e body w = (Created, w1) ->
  (FormData_get body (lit "status") <> Some published ->
     readModel dts w1 = readModel dts w /\ totalPublished w1 = totalPublished w)
  /\ (FormData_get body (lit "status") = Some published ->
     totalPublished w1 = totalPublished w + 1
     /\ (exists v, In v (readModel dts w1) /\ v_id v = env_objectId e)
     /\ (forall v, In v (readModel dts w) -> In v (readModel dts w1))).
Proof.
  intros H.
  pose proof (run_frame e (Create body) w) as (_ & Fc & Fs & Ft).
  unfold run in Fc, Fs, Ft. rewrite H in Fc, Fs, Ft. simpl in Fc, Fs, Ft.
  apply POST_Created_inv in H. destruct H as (_ & _ & _ & H).
  assert (W : exists p, posts w1 = posts w ++ [p] /\ _id p = env_objectId e
                        /\ status p = FormData_get body (lit "status")).
  { destruct (FormData_get body (lit "featuredImage")) as [[s|f]|];
      [| destruct H as (url & _ & H) |]; subst w1; eexists;
      (split; [reflexivity|]); auto. }
  destruct W as (p & Hposts & Hid & Hst).
  assert (J : forall w', joined w' = flat_map (docs_of w')
                                       (stage_sort (stage_match (posts w')))).
  { intros w'. unfold joined. apply stages_flat_map. }
  split.
  - intros Hn.
    assert (P : is_published p = false).
    { destruct (is_published p) eqn:P; [|reflexivity].
      apply is_published_iff in P. congruence. }
    split.
    + unfold readModel. rewrite !J, Hposts, stage_match_appended, P, app_nil_r.
      f_equal. apply flat_map_ext. intros a. now apply docs_of_frame.
    + unfold totalPublished.
      change (filter is_published (posts w1)) with (stage_match (posts w1)).
      rewrite Hposts, stage_match_appended, P, app_nil_r. reflexivity.
  - intros Hp.
    assert (P : is_published p = true) by (apply is_published_iff; congruence).
    split; [|split].
    + unfold totalPublished.
      change (filter is_published (posts w1)) with (stage_match (posts w1)).
      rewrite Hposts, stage_match_appended, P, length_app. simpl.
      unfold stage_match. lia.
    + destruct (joined_complete w1 p) as (d & Hd & Hdp);
        [rewrite Hposts; apply in_or_app; simpl; auto | assumption |].
      exists (project dts d). split; [unfold readModel; now apply in_map|].
      simpl. now rewrite Hdp.
    + intros v Hv. unfold readModel in *. apply in_map_iff in Hv.
      destruct Hv as (d & <- & Hd). apply in_map.
      apply joined_In_iff in Hd. destruct Hd as (q & Hq & Hs & Hd).
      apply joined_In_iff. exists q. split; [rewrite Hposts; apply in_or_app; auto|].
      split; [assumption|]. now rewrite (docs_of_frame w w1 q Fc Fs Ft).
Qed.

(** X18.  What a delete does to the listing: after a delete that was
    answered Deleted, identifiers being unique, the read model holds
    exactly the entries it held before whose identifier is not the deleted
    one. *)
Theorem deleted_post_leaves_listing (dts : Z -> jsstring) (e : Env) (id : jsstring)
    (w w1 : World) :
  DELETE e (Some id) w = (Deleted, w1) -> unique_ids w ->
  forall v, In v (readModel dts w1) <-> In v (readModel dts w) /\ v_id v <> id.
Proof.
  intros H ND v.
  pose proof (run_frame e (Delete (Some id)) w) as (_ & Fc & Fs & Ft).
  unfold run in Fc, Fs, Ft. rewrite H in Fc, Fs, Ft. simpl in Fc, Fs, Ft.
  apply DELETE_Deleted_inv in H.
  destruct H as (i & u & q & Ei & _ & _ & _ & _ & ->). injection Ei as <-.
  assert (D : forall d, In d (joined (removed (EStr id) q w))
                        <-> In d (joined w) /\ _id (d_post d) <> id).
  { intros d. rewrite !joined_In_iff. split.
    - intros (p & Hp & Hs & Hd). simpl in Hp.
      apply (In_remove_post (EStr id) (posts w) p ND) in Hp.
      destruct Hp as [Hp Hne].
      rewrite (docs_of_frame w _ p Fc Fs Ft) in Hd.
      split; [exists p; auto|].
      apply docs_of_In in Hd. destruct Hd as (-> & _). congruence.
    - intros [(p & Hp & Hs & Hd) Hne]. exists p.
      pose proof (docs_of_In _ _ _ Hd) as (Hdp & _).
      split; [|split; [assumption | now rewrite (docs_of_frame w _ p Fc Fs Ft)]].
      simpl. apply (In_remove_post (EStr id) (posts w) p ND).
      split; [assumption|]. rewrite <- Hdp. congruence. }
  unfold readModel. rewrite !in_map_iff. split.
  - intros (d & <- & Hd). apply D in Hd. destruct Hd as [Hd Hne].
    split; [exists d; auto | exact Hne].
  - intros [(d & <- & Hd) Hne]. exists d. split; [reflexivity|]. apply D. auto.
Qed.

(** X19.  The writes ask for a known user and nothing more: the outcome
    of a create, an update or a delete is the same whichever known user
    holds the session, whoever the author of the post is. *)
Theorem any_known_user_may_write (e : Env) (op : Operation) (w : World)
    (u u' : jsstring) :
  env_session e = Some u -> known_user u w -> known_user u' w ->
  run (set_session (Some u') e) op w = run e op w.
Proof.
  intros Hs Hu Hu'.
  destruct (known_user_found _ _ Hu) as [usr Hf].
  destruct (known_user_found _ _ Hu') as [usr' Hf'].
  destruct op as [body|body|id]; unfold run; unfold_handler;
    change (env_session (set_session (Some u') e)) with (Some u');
    rewrite Hs.
  - destruct (required_missing body); [reflexivity|]. now rewrite Hf, Hf'.
  - destruct (required_missing body); [reflexivity|]. now rewrite Hf, Hf'.
  - destruct id as [[|c r]|]; try reflexivity. now rewrite Hf, Hf'.
Qed.

(* ================================================================== *)
(** ** Trimmed strings, clean segments and the tags that are stored *)

Lemma trimStart_clean (s : jsstring) : starts_clean (trimStart s).
Proof.
  induction s as [|c r IH]; simpl; [exact I|].
  destruct (is_space c) eqn:E; [exact IH | exact E].
Qed.

Lemma trimStart_of_clean (s : jsstring) : starts_clean s -> trimStart s = s.
Proof. destruct s as [|c r]; simpl; [reflexivity | now intros ->]. Qed.

Lemma trimStart_suffix (s : jsstring) : exists sp, s = sp ++ trimStart s.
Proof.
  induction s as [|c r [sp IH]]; simpl; [now exists []|].
  destruct (is_space c); [|now exists []].
  exists (c :: sp). simpl. now rewrite <- IH.
Qed.

Lemma trimEnd_prefix (s : jsstring) : exists sp, s = trimEnd s ++ sp.
Proof.
  unfold trimEnd. destruct (trimStart_suffix (rev s)) as [sp H].
  exists (rev sp). rewrite <- rev_app_distr, <- H. now rewrite rev_involutive.
Qed.

Lemma trimEnd_clean (s : jsstring) : starts_clean s -> starts_clean (trimEnd s).
Proof.
  intros H. destruct (trimEnd_prefix s) as [sp E].
  destruct (trimEnd s) as [|c r]; [exact I|].
  rewrite E in H. exact H.
Qed.

Lemma trim_In (s : jsstring) (c : cu) : In c (trim s) -> In c s.
Proof.
  unfold trim. intros H.
  destruct (trimEnd_prefix (trimStart s)) as [sp1 E1].
  destruct (trimStart_suffix s) as [sp2 E2].
  rewrite E2, E1. apply in_or_app. right. apply in_or_app. auto.
Qed.

(** Trimming what is trimmed changes nothing. *)
Lemma trim_trim (s : jsstring) : trim (trim s) = trim s.
Proof.
  unfold trim.
  rewrite (trimStart_of_clean (trimEnd (trimStart s)))
    by (apply trimEnd_clean, trimStart_clean).
  unfold trimEnd at 1. unfold trimEnd at 1. rewrite rev_involutive.
  rewrite (trimStart_of_clean (trimStart _)) by apply trimStart_clean.
  reflexivity.
Qed.

Lemma contains_In (sep : cu) (s : jsstring) : contains sep s = true <-> In sep s.
Proof.
  unfold contains. rewrite existsb_exists. split.
  - intros (x & Hx & E). apply N.eqb_eq in E. now subst x.
  - intros H. exists sep. split; [assumption | apply N.eqb_refl].
Qed.

Lemma contains_false (sep : cu) (s : jsstring) :
  contains sep s = false <-> ~ In sep s.
Proof.
  rewrite <- contains_In. destruct (contains sep s); split; congruence.
Qed.

(** No segment of a split holds the separator. *)
Lemma split_segments_clean (sep : cu) (s seg : jsstring) :
  In seg (split sep s) -> contains sep seg = false.
Proof.
  revert seg; induction s as [|c r IH]; simpl; intros seg.
  - intros [<-|[]]. reflexivity.
  - destruct (cu_eqb c sep) eqn:E.
    + intros [<-|H]; [reflexivity | now apply IH].
    + pose proof (split_not_nil sep r) as N.
      destruct (split sep r) as [|s0 ss]; [congruence|].
      intros [<-|H]; [|apply IH; simpl; auto].
      apply contains_false. intros [->|Hin].
      * unfold cu_eqb in E. rewrite N.eqb_refl in E. discriminate.
      * apply contains_In in Hin. rewrite (IH s0) in Hin by (simpl; auto).
        discriminate.
Qed.

Lemma filteredTags_normalized (vs : list entry) :
  filteredTags vs <> [] /\ Forall normalized (filteredTags vs).
Proof.
  unfold filteredTags. split.
  - pose proof (split_not_nil COMMA (tagsString vs)).
    destruct (split COMMA (tagsString vs)); [congruence | discriminate].
  - apply Forall_forall. intros t Ht. apply in_map_iff in Ht.
    destruct Ht as (seg & <- & Hseg). split; [apply trim_trim|].
    apply contains_false. intros Hin. apply trim_In in Hin.
    apply contains_In in Hin.
    rewrite (split_segments_clean COMMA _ _ Hseg) in Hin. discriminate.
Qed.

(** X20.  The tags a create or an update stores are normalized whatever
    was supplied: there is at least one, and each has no white space at
    either end (trimming it again changes nothing) and no comma. *)
Theorem stored_tags_are_normalized (e : Env) (body : FormData) (w w' : World) :
  (POST e body w = (Created, w') ->
     exists p, posts w' = posts w ++ [p]
               /\ tags p <> [] /\ Forall normalized (tags p))
  /\ (PUT e body w = (Updated, w') ->
     exists id p, FormData_get body (lit "_id") = Some id
                  /\ Post_findOne id (posts w') = Some p
                  /\ tags p <> [] /\ Forall normalized (tags p)).
Proof.
  pose proof (filteredTags_normalized (FormData_getAll body (lit "tags"))) as [N F].
  split.
  - intros H. apply POST_Created_tags in H. destruct H as (p & Hp & Ht).
    exists p. rewrite Ht. auto.
  - intros H. apply PUT_Updated_tags in H. destruct H as (id & p & Hid & Hp & Ht).
    exists id, p. rewrite Ht. auto.
Qed.

(** X21.  The normalization is stable: sending the tags of a stored post
    back as the tag values of a form yields those tags again, so an update
    that resubmits a post's tags leaves them as they are. *)
Theorem resubmitted_tags_are_stable (vs : list entry) :
  filteredTags (map EStr (filteredTags vs)) = filteredTags vs.
Proof.
  pose proof (filteredTags_normalized vs) as [N F].
  rewrite filteredTags_without_sep.
  - rewrite map_map. simpl. rewrite <- (map_id (filteredTags vs)) at 2.
    apply map_ext_in. intros t Ht. rewrite Forall_forall in F.
    exact (proj1 (F t Ht)).
  - destruct (filteredTags vs); [congruence | discriminate].
  - intros v Hv. apply in_map_iff in Hv. destruct Hv as (t & <- & Ht).
    rewrite Forall_forall in F. exact (proj2 (F t Ht)).
Qed.

(* ================================================================== *)
(** ** The name of an uploaded object *)

Lemma last_In {A} (l : list A) (d : A) : l <> [] -> In (last l d) l.
Proof.
  induction l as [|x l IH]; [congruence|]. intros _.
  destruct l as [|y l]; [simpl; auto|].
  right. apply IH. discriminate.
Qed.

Lemma extension_clean (f : File) : contains SLASH (extension f) = false.
Proof.
  unfold extension, pop. apply split_segments_clean with (s := file_type f).
  apply last_In, split_not_nil.
Qed.

Lemma random_component_digits (e : Env) :
  random_component e <> []
  /\ Forall (fun c => is_digit c = true) (random_component e).
Proof.
  unfold random_component, toFixed0, decimal.
  pose proof (toFixed0_int_bounds e) as [B _].
  set (n := toFixed0_int (times_1e11 (Math_random e))) in *.
  assert (Bn : 0 <= n < 10 ^ Z.of_nat (S (Z.to_nat (Z.log2 n)))).
  { split; [assumption|].
    destruct (Z.eq_dec n 0) as [->|N0]; [reflexivity|].
    pose proof (Z.log2_nonneg n). rewrite Nat2Z.inj_succ, Z2Nat.id by assumption.
    apply Z.lt_le_trans with (2 ^ Z.succ (Z.log2 n)).
    - apply Z.log2_spec. lia.
    - apply Z.pow_le_mono_l. lia. }
  destruct (digits_from_spec _ n [] Bn) as (ds & -> & Hne & Hd & _).
  rewrite app_nil_r. auto.
Qed.

(** X22.  The object of a created post lies directly in the folder
    the-educative/blog: split on the slash, its name has the three
    segments the-educative, blog and post-<digits>.<ext>, the digits being
    decimal digits only, whatever the media type of the file is. *)
Theorem created_object_path (e : Env) (f : File) :
  split SLASH (create_fileName e f)
  = [lit "the-educative"; lit "blog";
     lit "post-" ++ random_component e ++ DOT :: extension f]
  /\ random_component e <> []
  /\ Forall (fun c => is_digit c = true) (random_component e).
Proof.
  pose proof (random_component_digits e) as [Hne Hd].
  split; [|auto].
  change (create_fileName e f)
    with (lit "the-educative" ++ SLASH
          :: (lit "blog" ++ SLASH
              :: (lit "post-" ++ random_component e ++ DOT :: extension f))).
  rewrite !split_app.
  rewrite (split_without_sep SLASH (lit "post-" ++ _)); [reflexivity|].
  apply contains_false. intros Hin.
  apply in_app_or in Hin. destruct Hin as [Hin|Hin].
  { vm_compute in Hin. intuition discriminate. }
  apply in_app_or in Hin. destruct Hin as [Hin|[Hin|Hin]].
  - rewrite Forall_forall in Hd. specialize (Hd _ Hin). discriminate Hd.
  - discriminate Hin.
  - apply contains_In in Hin. rewrite extension_clean in Hin. discriminate.
Qed.

Lemma bucket_get_put (key k : jsstring) (f : File) (b : list (jsstring * File)) :
  bucket_get k (bucket_put key f b)
  = if str_eqb key k then Some f else bucket_get k b.
Proof.
  unfold bucket_get, bucket_put. simpl.
  destruct (str_eqb key k) eqn:E; [reflexivity|]. f_equal.
  induction b as [|kv b IH]; simpl; [reflexivity|].
  destruct (str_eqb (fst kv) key) eqn:K; simpl.
  - apply str_eqb_eq in K. rewrite K, E. exact IH.
  - destruct (str_eqb (fst kv) k); [reflexivity | exact IH].
Qed.

(** X23.  An update with a file stores it under the key
    the-educative/blog/post-<id>.<ext> made of the target identifier and
    the final segment of the media type: after the update the bucket holds
    the new file under that key, in place of whatever was there, and every
    other key holds what it held. *)
Theorem updated_object_key (e : Env) (body : FormData) (w w' : World) (f : File) :
  PUT e body w = (Updated, w') -> attached body = Some f ->
  exists id,
    FormData_get body (lit "_id") = Some id
    /\ bucket_get (lit "the-educative/blog/post-" ++ toString id ++ DOT :: extension f)
         (bucket w') = Some f
    /\ (forall k,
          k <> lit "the-educative/blog/post-" ++ toString id ++ DOT :: extension f ->
          bucket_get k (bucket w') = bucket_get k (bucket w)).
Proof.
  intros H Hf. apply PUT_Updated_inv in H.
  destruct H as (_ & _ & _ & id & old & Hid & _ & H).
  unfold attached in Hf.
  destruct (FormData_get body (lit "featuredImage")) as [[s|g]|]; try discriminate.
  injection Hf as ->. destruct H as (url & _ & ->).
  exists id. split; [assumption|]. simpl. unfold update_fileName. split.
  - now rewrite bucket_get_put, str_eqb_refl.
  - intros k Hk. rewrite bucket_get_put.
    destruct (str_eqb _ k) eqn:E; [|reflexivity].
    apply str_eqb_eq in E. exfalso. apply Hk. symmetry. exact E.
Qed.

(** X24.  The target of an update is looked for only after validation and
    authorization: a valid form without [_id], or with an empty one, sent
    by a known user is answered 400 Invalid Post and changes nothing,
    attached file or not. *)
Theorem update_without_target (e : Env) (body : FormData) (w : World) (u : jsstring) :
  ~ payload_missing (Update body) -> env_session e = Some u -> known_user u w ->
  falsy (FormData_get body (lit "_id")) = true ->
  PUT e body w = (InvalidTarget, w).
Proof.
  intros Hv Hs Hu Hf.
  assert (V : required_missing body = false).
  { destruct (required_missing body) eqn:E; [|reflexivity].
    exfalso. apply Hv. now apply required_missing_iff. }
  destruct (known_user_found _ _ Hu) as [usr Hfound].
  unfold_handler. rewrite V, Hs, Hfound.
  destruct (FormData_get body (lit "_id")); [now rewrite Hf | reflexivity].
Qed.

(** X25.  How the failures of the collaborators are answered, for a valid
    form sent by a known user: a rejected upload or download URL gives 500;
    a save that throws a MongooseError gives 400 with the error's message,
    and a save that throws anything else gives 500.  This holds for every
    create, and for every update whose form names a post of the store. *)
Theorem collaborator_failures (e : Env) (body : FormData) (w : World) (u : jsstring) :
  ~ payload_missing (Create body) -> env_session e = Some u -> known_user u w ->
  (attached body <> None -> (forall url, env_upload e <> UploadOk url) ->
     code (fst (POST e body w)) = 500
     /\ (targets body w -> code (fst (PUT e body w)) = 500))
  /\ ((attached body <> None -> exists url, env_upload e = UploadOk url) ->
      forall m,
        (env_save e = Some (MongooseError m) ->
           fst (POST e body w) = json (BError m) 400
           /\ (targets body w -> fst (PUT e body w) = json (BError m) 400))
        /\ (env_save e = Some (OtherError m) ->
           code (fst (POST e body w)) = 500
           /\ (targets body w -> code (fst (PUT e body w)) = 500))).
Proof.
  intros Hv Hs Hu.
  assert (V : required_missing body = false).
  { destruct (required_missing body) eqn:E; [|reflexivity].
    exfalso. apply Hv. now apply required_missing_iff. }
  rewrite (POST_authorized e body w u V Hs Hu).
  assert (P : targets body w -> exists id old,
            PUT e body w
            = match attached body with
              | Some f =>
                  match env_upload e with
                  | UploadFails err => (json (BErrorObj (OtherError err)) 500, w)
                  | UrlFails err =>
                      (json (BErrorObj (OtherError err)) 500,
                       uploaded (update_fileName id f) f w)
                  | UploadOk url =>
                      match env_save e with
                      | Some ex => (catch_write ex, uploaded (update_fileName id f) f w)
                      | None =>
                          (Updated,
                           replaced (with_featuredImage url (assign_fields body old))
                             (uploaded (update_fileName id f) f w))
                      end
                  end
              | None =>
                  match env_save e with
                  | Some ex => (catch_write ex, w)
                  | None => (Updated, replaced (assign_fields body old) w)
                  end
              end).
  { intros (id & old & Hid & Hf & Hold). exists id, old.
    exact (PUT_authorized e body w u id old V Hs Hu Hid Hf Hold). }
  split.
  - intros Ha Hfail. destruct (attached body) as [f|]; [|congruence].
    destruct (env_upload e) as [err|err|url] eqn:U.
    + split; [reflexivity|]. intros T. destruct (P T) as (id & old & ->). reflexivity.
    + split; [reflexivity|]. intros T. destruct (P T) as (id & old & ->). reflexivity.
    + exfalso. exact (Hfail url eq_refl).
  - intros Hup m. destruct (attached body) as [f|].
    + destruct Hup as [url Hurl]; [discriminate|]. rewrite Hurl in *.
      split; intros Hsv; rewrite Hsv in *; (split; [reflexivity|]);
        intros T; destruct (P T) as (id & old & ->); reflexivity.
    + split; intros Hsv; rewrite Hsv in *; (split; [reflexivity|]);
        intros T; destruct (P T) as (id & old & ->); reflexivity.
Qed.

(* ================================================================== *)
(** ** The further properties at concrete requests *)

Example joined_sample :
  joined Sample.world = [Cases.doc_p3; Cases.doc_p4; Cases.doc_p1].
Proof. vm_compute. reflexivity. Qed.

Lemma sample_unique_terms :
  unique_terms (categories Sample.thirteen)
  /\ unique_terms (subcategories Sample.thirteen).
Proof. split; repeat constructor; simpl; tauto. Qed.

Lemma sample_valid_forms :
  ~ payload_missing (Create Sample.fields)
  /\ ~ payload_missing (Create Sample.upload_form)
  /\ ~ payload_missing (Create Sample.update_form)
  /\ ~ payload_missing (Create Cases.update_with_file).
Proof.
  repeat split; rewrite payload_missing_dec; vm_compute; discriminate.
Qed.

Lemma sample_known_user : known_user (lit "u1") Sample.world.
Proof. exists {| user_id := lit "u1" |}. split; [simpl; auto | reflexivity]. Qed.

Lemma bad_limit_gives_no_page_count_witness :
  parse_integer
    (or_default (searchParams_get [(lit "limit", lit "0")] (lit "limit")) (lit "6"))
  = Some 0
  /\ ((code (fst (GET dmy [(lit "limit", lit "0")] Cases.lenient)) = 500
       /\ exists m, body (fst (GET dmy [(lit "limit", lit "0")] Cases.lenient))
                    = BError m)
      \/ exists ps,
           fst (GET dmy [(lit "limit", lit "0")] Cases.lenient)
           = json (BPosts ps None) 200).
Proof.
  split; [vm_compute; reflexivity|].
  apply (bad_limit_gives_no_page_count dmy [(lit "limit", lit "0")] Cases.lenient).
  right. vm_compute. reflexivity.
Defined.

Lemma page_sizes_witness :
  exact_paging 3 6
  /\ Z.of_nat (length (listed dmy (query 3 6) Sample.thirteen))
     = Z.max 0 (Z.min 6 (totalPublished Sample.thirteen - (3 - 1) * 6)).
Proof.
  assert (X : exact_paging 3 6) by (unfold exact_paging; lia).
  split; [exact X|].
  apply (proj1 (page_sizes dmy Sample.thirteen 3 6
                  (proj1 sample_unique_terms) (proj2 sample_unique_terms)
                  ltac:(lia) ltac:(lia) X)).
Defined.

Lemma pages_cover_read_model_witness :
  is_ceiling 3 (totalPublished Sample.thirteen) 6
  /\ concat (map (fun k => listed dmy (query (Z.of_nat k) 6) Sample.thirteen)
               (seq 1 (Z.to_nat 3)))
     = readModel dmy Sample.thirteen.
Proof.
  assert (T : totalPublished Sample.thirteen = 13) by (vm_compute; reflexivity).
  assert (C : is_ceiling 3 (totalPublished Sample.thirteen) 6).
  { unfold is_ceiling. rewrite T. lia. }
  split; [exact C|].
  apply (proj1 (pages_cover_read_model dmy Sample.thirteen 6 3
                  (proj1 sample_unique_terms) (proj2 sample_unique_terms)
                  ltac:(lia) ltac:(lia) ltac:(rewrite T; lia) C)).
Defined.

Lemma earlier_pages_are_newer_witness :
  In Cases.doc_p4 (page_of 1 2 (joined Sample.world))
  /\ In Cases.doc_p1 (page_of 2 2 (joined Sample.world))
  /\ listed dmy (query 2 2) Sample.world = [project dmy Cases.doc_p1]
  /\ doc_date Cases.doc_p1 <= doc_date Cases.doc_p4.
Proof.
  assert (I1 : In Cases.doc_p4 (page_of 1 2 (joined Sample.world)))
    by (vm_compute; auto).
  assert (I2 : In Cases.doc_p1 (page_of 2 2 (joined Sample.world)))
    by (vm_compute; auto).
  split; [exact I1|]. split; [exact I2|].
  destruct (earlier_pages_are_newer dmy Sample.world 1 2 2 _ _
              ltac:(lia) ltac:(lia) ltac:(lia) I1 I2) as [HL HD].
  split; [|exact HD].
  destruct HL as [_ H2]; [rewrite joined_sample; simpl; lia|].
  rewrite H2, joined_sample. reflexivity.
Defined.

Lemma listed_tags_resolve_witness :
  In (project dmy Cases.doc_p3) (readModel dmy Sample.world)
  /\ exists p,
       In p (posts Sample.world) /\ _id p = lit "p3"
       /\ length (v_tags (project dmy Cases.doc_p3))
          = length (v_tagNames (project dmy Cases.doc_p3)).
Proof.
  assert (I : In (project dmy Cases.doc_p3) (readModel dmy Sample.world))
    by (vm_compute; auto).
  split; [exact I|].
  destruct (listed_tags_resolve dmy Sample.world _ I) as (p & Hp & Hid & Hl & _).
  exists p. auto.
Defined.

Lemma listed_category_resolves_witness :
  In (project dmy Cases.doc_p4) (readModel dmy Sample.world)
  /\ exists p,
       In p (posts Sample.world) /\ _id p = lit "p4"
       /\ category p = Some (EStr (lit "c1")).
Proof.
  assert (I : In (project dmy Cases.doc_p4) (readModel dmy Sample.world))
    by (vm_compute; auto).
  split; [exact I|].
  destruct (listed_category_resolves dmy Sample.world _ I)
    as (p & Hp & Hid & Hc & _).
  exists p. split; [assumption|]. split; [assumption|].
  exact (proj1 (Hc (lit "c1") eq_refl)).
Defined.

Lemma listing_of_nothing_published_witness :
  GET dmy (query 1 6) Cases.drafts = (json (BPosts [] (Some 0)) 200, Cases.drafts).
Proof.
  apply listing_of_nothing_published; [|lia|lia|unfold exact_paging; lia].
  intros p [<-|[]] E. vm_compute in E. discriminate E.
Defined.

Lemma failed_write_changes_no_post_witness :
  fst (run (Sample.with_session None Sample.env) (Create Sample.fields) Sample.world)
  <> Created
  /\ posts (snd (run (Sample.with_session None Sample.env) (Create Sample.fields)
                   Sample.world))
     = posts Sample.world.
Proof.
  assert (N : fst (run (Sample.with_session None Sample.env) (Create Sample.fields)
                     Sample.world) <> Created)
    by (vm_compute; discriminate).
  split; [exact N|].
  exact (failed_write_changes_no_post _ (Create Sample.fields) Sample.world N).
Defined.

Lemma writes_leave_the_rest_witness :
  attached Sample.update_form = None
  /\ bucket (snd (run Sample.env (Update Sample.update_form) Sample.world))
     = bucket Sample.world.
Proof.
  split; [reflexivity|].
  apply (proj2 (proj2 (proj2 (proj2
           (writes_leave_the_rest Sample.env (Update Sample.update_form)
              Sample.world))))).
  reflexivity.
Defined.

Lemma create_persists_supplied_fields_witness :
  exists p,
    fst (POST Sample.env Sample.fields Sample.world) = Created
    /\ posts (snd (POST Sample.env Sample.fields Sample.world))
       = posts Sample.world ++ [p]
    /\ _id p = lit "p9".
Proof.
  destruct (create_persists_supplied_fields Sample.env Sample.fields Sample.world
              (lit "u1") (proj1 sample_valid_forms) eq_refl sample_known_user
              eq_refl)
    as (p & H1 & H2 & H3 & _).
  - intros H. exfalso. apply H. reflexivity.
  - exists p. auto.
Defined.

Lemma failed_persist_leaves_object_witness :
  posts (snd (POST Cases.save_refused Sample.upload_form Sample.world))
  = posts Sample.world
  /\ bucket_get (create_fileName Cases.save_refused Sample.png)
       (bucket (snd (POST Cases.save_refused Sample.upload_form Sample.world)))
     = Some Sample.png.
Proof.
  destruct (failed_persist_leaves_object Cases.save_refused Sample.upload_form
              Sample.world (lit "u1") Sample.png
              (proj1 (proj2 sample_valid_forms)) eq_refl sample_known_user eq_refl)
    as ((_ & H2 & H3) & _).
  - right. eexists _, _. split; reflexivity.
  - auto.
Defined.

Lemma update_twice_is_update_once_witness :
  exists w2,
    PUT (set_session (Some (lit "u2")) Sample.env) Cases.update_with_file
      (snd (PUT Sample.env Cases.update_with_file Cases.two_users))
    = (Updated, w2)
    /\ posts w2 = posts (snd (PUT Sample.env Cases.update_with_file Cases.two_users))
    /\ bucket w2
       = bucket (snd (PUT Sample.env Cases.update_with_file Cases.two_users)).
Proof.
  apply (update_twice_is_update_once Sample.env
           (set_session (Some (lit "u2")) Sample.env) Cases.update_with_file
           Cases.two_users _ (lit "u2")).
  - vm_compute. reflexivity.
  - reflexivity.
  - exists {| user_id := lit "u2" |}. split; [simpl; auto | reflexivity].
  - reflexivity.
  - intros _. reflexivity.
Defined.

Lemma create_then_delete_restores_witness :
  exists w2,
    DELETE Sample.env (Some (lit "p9"))
      (snd (POST Sample.env Sample.fields Sample.world))
    = (Deleted, w2)
    /\ posts w2 = posts Sample.world.
Proof.
  apply (create_then_delete_restores Sample.env Sample.env Sample.fields
           Sample.world _ (lit "u1")).
  - vm_compute. reflexivity.
  - intros q [<-|[<-|[<-|[<-|[]]]]]; vm_compute; discriminate.
  - vm_compute. discriminate.
  - reflexivity.
  - exact sample_known_user.
Defined.

Lemma deleted_post_stays_gone_witness :
  DELETE Sample.env (Some (lit "p2"))
    (snd (DELETE Sample.env (Some (lit "p2")) Sample.world))
  = (NotFound, snd (DELETE Sample.env (Some (lit "p2")) Sample.world)).
Proof.
  apply (proj1 (deleted_post_stays_gone Sample.env Sample.env (lit "p2")
                  Sample.world _ (lit "u1")
                  ltac:(vm_compute; reflexivity) sample_unique_ids eq_refl
                  sample_known_user)).
Defined.

Lemma created_post_and_listing_witness :
  FormData_get Cases.published_form (lit "status") = Some published
  /\ totalPublished (snd (POST Sample.env Cases.published_form Sample.world))
     = totalPublished Sample.world + 1.
Proof.
  split; [reflexivity|].
  apply (proj2 (created_post_and_listing dmy Sample.env Cases.published_form
                  Sample.world _ ltac:(vm_compute; reflexivity))).
  reflexivity.
Defined.

Lemma deleted_post_leaves_listing_witness :
  In (project dmy Cases.doc_p3)
    (readModel dmy (snd (DELETE Sample.env (Some (lit "p1")) Sample.world))).
Proof.
  apply (proj2 (deleted_post_leaves_listing dmy Sample.env (lit "p1") Sample.world _
                  ltac:(vm_compute; reflexivity) sample_unique_ids
                  (project dmy Cases.doc_p3))).
  split; [vm_compute; auto | vm_compute; discriminate].
Defined.

Lemma any_known_user_may_write_witness :
  run (set_session (Some (lit "u2")) Sample.env) (Delete (Some (lit "p1")))
    Cases.two_users
  = run Sample.env (Delete (Some (lit "p1"))) Cases.two_users.
Proof.
  apply (any_known_user_may_write Sample.env _ Cases.two_users (lit "u1") (lit "u2")).
  - reflexivity.
  - exists {| user_id := lit "u1" |}. split; [simpl; auto | reflexivity].
  - exists {| user_id := lit "u2" |}. split; [simpl; auto | reflexivity].
Defined.

Lemma stored_tags_are_normalized_witness :
  exists id p,
    FormData_get Sample.update_form (lit "_id") = Some id
    /\ Post_findOne id
         (posts (snd (PUT Sample.env Sample.update_form Sample.world))) = Some p
    /\ tags p <> [] /\ Forall normalized (tags p).
Proof.
  apply (proj2 (stored_tags_are_normalized Sample.env Sample.update_form
                  Sample.world _)).
  vm_compute. reflexivity.
Defined.

Lemma updated_object_key_witness :
  bucket_get (lit "the-educative/blog/post-p1.png")
    (bucket (snd (PUT Sample.env Cases.update_with_file Sample.world)))
  = Some Sample.png.
Proof.
  destruct (updated_object_key Sample.env Cases.update_with_file Sample.world _
              Sample.png ltac:(vm_compute; reflexivity) eq_refl)
    as (id & Hid & Hget & _).
  vm_compute in Hid. injection Hid as <-. exact Hget.
Defined.

Lemma update_without_target_witness :
  falsy (FormData_get Sample.fields (lit "_id")) = true
  /\ PUT Sample.env Sample.fields Sample.world = (InvalidTarget, Sample.world).
Proof.
  split; [reflexivity|].
  apply (update_without_target Sample.env Sample.fields Sample.world (lit "u1")
           (proj1 sample_valid_forms) eq_refl sample_known_user eq_refl).
Defined.

Lemma collaborator_failures_witness :
  fst (POST Cases.save_refused Sample.update_form Sample.world)
  = json (BError (lit "Post validation failed")) 400
  /\ targets Sample.update_form Sample.world
  /\ fst (PUT Cases.save_refused Sample.update_form Sample.world)
     = json (BError (lit "Post validation failed")) 400.
Proof.
  assert (T : targets Sample.update_form Sample.world).
  { exists (EStr (lit "p1")),
      (Sample.mkPost (lit "p1") "published" "c1" "s1" [lit "t1"] 1000).
    repeat split. }
  destruct (collaborator_failures Cases.save_refused Sample.update_form Sample.world
              (lit "u1")
              (proj1 (proj2 (proj2 sample_valid_forms))) eq_refl sample_known_user)
    as [_ H].
  destruct (H ltac:(intros N; exfalso; apply N; reflexivity)
              (lit "Post validation failed")) as [Hm _].
  destruct (Hm eq_refl) as [HP HU].
  split; [exact HP|]. split; [exact T|]. exact (HU T).
Defined.
